(** * face-detection: the orchestration layer of [app.py]

    A shallow embedding of the three pieces of original logic of the service:
    the start-up gallery loader [load_known_faces], the notifier
    [send_to_nodejs] with its bounded retry, and the request handler
    [compare_faces] for [POST /compare-face].

    Third-party collaborators (the face_recognition library, requests, the
    file system, Flask's request object) are not part of the program: they
    appear as the variables of a section, and every theorem holds for all of
    them.  Logging ([logger.*] and [print]) has no influence on control flow
    and is left out.  Distances and confidences are binary64 floats, as
    numpy's are; paths follow the POSIX rules of [os.path]. *)

From Stdlib Require Import List String Ascii ZArith Bool Lia PeanoNat.
From Stdlib Require Import PrimFloat FloatOps SpecFloat FloatAxioms DecimalString.
Import ListNotations.

Local Open Scope string_scope.
Local Open Scope list_scope.
Local Set Warnings "-register-all".

(** ** Python values *)

(** The JSON-shaped values that travel through the program: the payload sent
    downstream, the parsed body that comes back, the body handed to
    [jsonify].  A [dict] keeps insertion order, as Python's does. *)
Inductive pyval : Type :=
| PyNone
| PyBool (b : bool)
| PyInt (z : Z)
| PyFloat (f : float)
| PyStr (s : string)
| PyList (l : list pyval)
| PyDict (d : list (string * pyval)).

(** Truth value of an object, as [if x:] tests it. *)
Definition truthy (v : pyval) : bool :=
  match v with
  | PyNone => false
  | PyBool b => b
  | PyInt z => negb (z =? 0)%Z
  | PyFloat f => negb (PrimFloat.eqb f 0%float)
  | PyStr s => negb (String.eqb s "")
  | PyList l => match l with [] => false | _ :: _ => true end
  | PyDict d => match d with [] => false | _ :: _ => true end
  end.

(** [d[k] = v] on a dict: overwrite in place, or append a new key. *)
Fixpoint dict_set (k : string) (v : pyval) (d : list (string * pyval))
  : list (string * pyval) :=
  match d with
  | [] => [(k, v)]
  | (k', v') :: d' =>
      if String.eqb k' k then (k, v) :: d' else (k', v') :: dict_set k v d'
  end.

Fixpoint dict_get (k : string) (d : list (string * pyval)) : option pyval :=
  match d with
  | [] => None
  | (k', v') :: d' => if String.eqb k' k then Some v' else dict_get k d'
  end.

(** Field of a value that is a dict. *)
Definition field (k : string) (v : pyval) : option pyval :=
  match v with
  | PyDict d => dict_get k d
  | _ => None
  end.

(** ** Exceptions *)

(** The exception classes the program tells apart: its own
    [FaceRecognitionError], [requests.RequestException] (with its subclasses),
    and every other subclass of [Exception].  The string is [str(e)]. *)
Inductive exn : Type :=
| FaceRecognitionError (msg : string)
| RequestException (msg : string)
| OtherException (msg : string).

Definition str_of_exn (e : exn) : string :=
  match e with
  | FaceRecognitionError m | RequestException m | OtherException m => m
  end.

Definition is_RequestException (e : exn) : bool :=
  match e with RequestException _ => true | _ => false end.

Definition is_FaceRecognitionError (e : exn) : bool :=
  match e with FaceRecognitionError _ => true | _ => false end.

(** [except Exception] catches all three. *)
Definition is_Exception (e : exn) : bool := true.

(** ** A state and exception monad

    A computation reads and updates a state of type [S]; it either returns a
    value or raises.  The state survives a raise, as the mutations of a
    Python [try] block do. *)
Module Eff.

Definition M (S A : Type) : Type := S -> (exn + A) * S.

Definition ret {S A} (a : A) : M S A := fun s => (inr a, s).

Definition raise {S A} (e : exn) : M S A := fun s => (inl e, s).

Definition bind {S A B} (m : M S A) (f : A -> M S B) : M S B :=
  fun s =>
    match m s with
    | (inl e, s') => (inl e, s')
    | (inr a, s') => f a s'
    end.

(** [try: m  except C1: h1  except C2: h2 ...]: the first clause whose class
    matches handles the exception; with none, it propagates. *)
Fixpoint dispatch {S A} (clauses : list ((exn -> bool) * (exn -> M S A)))
         (e : exn) : M S A :=
  match clauses with
  | [] => raise e
  | (handles, h) :: rest => if handles e then h e else dispatch rest e
  end.

Definition try_except {S A} (m : M S A)
           (clauses : list ((exn -> bool) * (exn -> M S A))) : M S A :=
  fun s =>
    match m s with
    | (inl e, s') => dispatch clauses e s'
    | (inr a, s') => (inr a, s')
    end.

Definition modify {S} (f : S -> S) : M S unit := fun s => (inr tt, f s).

(** A result computed outside the monad (a library call) enters it. *)
Definition lift {S A} (r : exn + A) : M S A :=
  match r with
  | inl e => raise e
  | inr a => ret a
  end.

End Eff.

Notation "x <- m ;; k" := (Eff.bind m (fun x => k))
  (at level 61, m at next level, right associativity).
Notation "m ;;; k" := (Eff.bind m (fun _ => k))
  (at level 61, right associativity).

(** ** Configuration (the [CONFIG] dict) *)
Module CONFIG.
Definition NODE_JS_URL : string :=
  "https://check-name-server.vercel.app/api/attendance".
Definition FACE_FOLDER : string := "Face/".
Definition TOLERANCE : float := 0.5%float.
Definition MAX_RETRIES : Z := 3.
Definition RETRY_DELAY : Z := 1.
Definition MIN_CONFIDENCE : float := 65%float.
End CONFIG.

(** ** Strings

    File names are strings of bytes; [lower] is [str.lower] on them (ASCII
    letters; the three suffixes tested are ASCII). *)

Definition lower_ascii (c : ascii) : ascii :=
  let n := nat_of_ascii c in
  if (65 <=? n)%nat && (n <=? 90)%nat then ascii_of_nat (n + 32) else c.

Fixpoint lower (s : string) : string :=
  match s with
  | EmptyString => EmptyString
  | String c s' => String (lower_ascii c) (lower s')
  end.

(** [s.endswith(suffix)] *)
Definition endswith (s suffix : string) : bool :=
  let n := String.length s in
  let m := String.length suffix in
  (m <=? n)%nat && String.eqb (substring (n - m) m s) suffix.

(** [s.endswith((suffix1, suffix2, ...))] *)
Definition endswith_any (s : string) (suffixes : list string) : bool :=
  existsb (endswith s) suffixes.

Definition startswith (s pre : string) : bool :=
  String.eqb (substring 0 (String.length pre) s) pre.

(** [s.rfind(c)] for a one-character [c]: the last index of [c], or -1. *)
Fixpoint rfind_from (c : ascii) (s : string) (i last : Z) : Z :=
  match s with
  | EmptyString => last
  | String a s' => rfind_from c s' (i + 1) (if Ascii.eqb a c then i else last)
  end.

Definition rfind (c : ascii) (s : string) : Z := rfind_from c s 0 (-1).

(** [s[i:j]] for [0 <= i]. *)
Definition slice (s : string) (i j : Z) : string :=
  substring (Z.to_nat i) (Z.to_nat (j - i)) s.

(** The [while] loop of [genericpath._splitext]: is there a character other
    than the dot in [p[i:dotIndex]]?  [n] bounds the iterations. *)
Fixpoint has_non_dot (p : string) (n : nat) (i dotIndex : Z) : bool :=
  match n with
  | O => false
  | S n' =>
      if (i <? dotIndex)%Z
      then if negb (String.eqb (slice p i (i + 1)) ".") then true
           else has_non_dot p n' (i + 1) dotIndex
      else false
  end.

(** [os.path.splitext] (POSIX): the extension starts at the last dot of the
    last path component; leading dots of that component belong to the root. *)
Definition splitext (p : string) : string * string :=
  let sepIndex := rfind "/" p in
  let dotIndex := rfind "." p in
  if (sepIndex <? dotIndex)%Z
     && has_non_dot p (String.length p) (sepIndex + 1) dotIndex
  then (slice p 0 dotIndex, slice p dotIndex (Z.of_nat (String.length p)))
  else (p, "").

(** [os.path.join(a, b)] (POSIX). *)
Definition os_path_join (a b : string) : string :=
  if startswith b "/" then b
  else if String.eqb a "" || endswith a "/" then a ++ b
  else a ++ "/" ++ b.

(** Does the character occur in the string? *)
Fixpoint occurs (c : ascii) (s : string) : bool :=
  match s with
  | EmptyString => false
  | String a s' => Ascii.eqb a c || occurs c s'
  end.

(** ** Formatting a float with [:.2f]

    Python prints the decimal nearest to the exact binary value, ties to
    even; the sign of a negative value is kept when it rounds to zero.
    [Prim2SF] gives the exact value [m * 2^e]. *)

(** [m * 2^e * 100] rounded to the nearest integer, ties to even. *)
Definition round_hundredths (m : positive) (e : Z) : N :=
  match e with
  | Zneg k =>
      let den := N.pos (Pos.pow 2 k) in
      let num := (N.pos m * 100)%N in
      let q := (num / den)%N in
      let r := (num mod den)%N in
      match (2 * r ?= den)%N with
      | Lt => q
      | Gt => (q + 1)%N
      | Eq => if N.even q then q else (q + 1)%N
      end
  | _ => (N.pos m * 2 ^ Z.to_N e * 100)%N
  end.

Definition two_digits (n : N) : string :=
  NilZero.string_of_uint (N.to_uint (n / 10))
  ++ NilZero.string_of_uint (N.to_uint (n mod 10)).

(** [h] hundredths, printed with two decimals. *)
Definition fixed2 (h : N) : string :=
  NilZero.string_of_uint (N.to_uint (h / 100)) ++ "." ++ two_digits (h mod 100).

Definition format_2f (x : float) : string :=
  match Prim2SF x with
  | S754_nan => "nan"
  | S754_infinity s => if s then "-inf" else "inf"
  | S754_zero s => (if s then "-" else "") ++ "0.00"
  | S754_finite s m e => (if s then "-" else "") ++ fixed2 (round_hundredths m e)
  end.

(** ** The outside world *)

(** What [requests.post] hands back when it does not raise: the status code,
    and what a call of [response.json()] would do (return the parsed body, or
    raise). *)
Record Response : Type := { status_code : Z; json : exn + pyval }.

(** What [face_recognition.load_image_file] is given: a path (the loader) or
    [io.BytesIO(image_data)] (the handler). *)
Inductive image_source : Type :=
| FromPath (path : string)
| FromBytes (data : list Byte.byte).

(** An uploaded part of [request.files], and the request. *)
Record FileStorage : Type := { content_type : string; stream : list Byte.byte }.

Record request : Type := { files : list (string * FileStorage) }.

(** [request.files[k]], [None] when [k not in request.files]. *)
Fixpoint files_get (k : string) (fs : list (string * FileStorage))
  : option FileStorage :=
  match fs with
  | [] => None
  | (k', f) :: fs' => if String.eqb k' k then Some f else files_get k fs'
  end.

(** What the view function returns: [jsonify(body), status]. *)
Record http_response : Type := { status : Z; body : pyval }.

(** [jsonify(d)] alone is a 200. *)
Definition jsonify (d : list (string * pyval)) : http_response :=
  {| status := 200; body := PyDict d |}.

Definition jsonify_with (d : list (string * pyval)) (code : Z) : http_response :=
  {| status := code; body := PyDict d |}.

(** [True in l] and [l.index(True)] ([None]: [ValueError]). *)
Definition contains_true (l : list bool) : bool := existsb (fun b => b) l.

Fixpoint index_true (l : list bool) : option nat :=
  match l with
  | [] => None
  | true :: _ => Some O
  | false :: l' => option_map S (index_true l')
  end.

(** [for x in l: f(x)] *)
Fixpoint for_each {S A} (f : A -> Eff.M S unit) (l : list A) : Eff.M S unit :=
  match l with
  | [] => Eff.ret tt
  | x :: l' => f x ;;; for_each f l'
  end.

(** ** Sample collaborators

    A small concrete world on which the definitions below can be run: an
    embedding is a number, an image is the list of the embeddings of its
    faces, an uploaded byte string decodes to one face per byte other than
    the zero byte. *)
Module Sample.

Local Set Warnings "-inexact-float".

Definition image : Type := list nat.
Definition encoding : Type := nat.

Definition face_encodings (i : image) : exn + list encoding := inr i.

Definition faces_of_bytes (data : list Byte.byte) : list encoding :=
  filter (fun n => negb (Nat.eqb n 0))
         (map (fun b => N.to_nat (Byte.to_N b)) data).

Definition load_image_file (src : image_source) : exn + image :=
  match src with
  | FromBytes data => inr (faces_of_bytes data)
  | FromPath p =>
      if String.eqb p "Face/alice.jpg" then inr [1]
      else if String.eqb p "Face/alice.jpeg" then inr [1]
      else if String.eqb p "Face/bob.PNG" then inr [2; 3]
      else if String.eqb p "Face/wall.jpeg" then inr []
      else inl (OtherException "cannot identify image file")
  end.

(** Face 7 is at 0.3 of alice (embedding 1) and at 0.1 of bob (embedding 2);
    face 8 is at 0.4 of alice; face 6 is at a negative distance of alice;
    everything else is far. *)
Definition face_dist (k q : encoding) : float :=
  match k, q with
  | 1, 7 => 0.3
  | 2, 7 => 0.1
  | 1, 8 => 0.4
  | 1, 6 => -0.25
  | _, _ => 0.9
  end%float.

Definition path_exists (p : string) : bool := String.eqb p "Face/".

Definition listdir (p : string) : exn + list string :=
  inr ["notes.txt"; "alice.jpg"; "wall.jpeg"; "broken.jpg"; "bob.PNG";
       "alice.jpeg"].

Definition no_folder (p : string) : bool := false.

(** Downstream servers: one that cannot be reached, one that answers 200 with
    a JSON object, one that answers 404, one that answers 200 with the JSON
    body [null], one that answers 200 with a body that is not JSON (requests
    raises its own [JSONDecodeError], a [RequestException], since 2.27). *)
Definition unreachable (k : nat) : exn + Response :=
  inl (RequestException "timed out").

Definition answers_200 (k : nat) : exn + Response :=
  inr {| status_code := 200; json := inr (PyDict [("ok", PyBool true)]) |}.

Definition answers_404 (k : nat) : exn + Response :=
  inr {| status_code := 404; json := inl (OtherException "not JSON") |}.

Definition answers_null (k : nat) : exn + Response :=
  inr {| status_code := 200; json := inr PyNone |}.

(** A server that is out of reach twice and then answers 200 with the JSON
    body [null]. *)
Definition recovers_with_null (k : nat) : exn + Response :=
  if (k <? 2)%nat then inl (RequestException "timed out")
  else inr {| status_code := 200; json := inr PyNone |}.

(** A server that is out of reach once and then answers 200 with a JSON
    object; one whose answer makes requests raise something that is not a
    [RequestException]; one that answers 200 with an empty JSON object. *)
Definition recovers (k : nat) : exn + Response :=
  if (k <? 1)%nat then inl (RequestException "timed out")
  else inr {| status_code := 200; json := inr (PyDict [("ok", PyBool true)]) |}.

Definition crashes (k : nat) : exn + Response :=
  inl (OtherException "unexpected keyword argument").

Definition answers_empty (k : nat) : exn + Response :=
  inr {| status_code := 200; json := inr (PyDict []) |}.

Definition answers_html (k : nat) : exn + Response :=
  inr {| status_code := 200;
         json := inl (RequestException "Expecting value: line 1 column 1") |}.

(** A folder that cannot be listed, and a decoder that rejects an upload
    whose first byte is [0xff]. *)
Definition listdir_denied (p : string) : exn + list string :=
  inl (OtherException "Permission denied").

Definition picky_load_image_file (src : image_source) : exn + image :=
  match src with
  | FromBytes (Byte.xff :: _) =>
      inl (OtherException "cannot identify image file")
  | _ => load_image_file src
  end.

(** A request whose [image] part holds the given bytes. *)
Definition upload (data : list Byte.byte) : request :=
  {| files := [("image", {| content_type := "image/jpeg"; stream := data |})] |}.

Definition gallery_encodings : list encoding := [1; 2].
Definition gallery_names : list string := ["alice"; "bob"].

End Sample.

Section Service.

(** Decoded images and face embeddings are opaque to the program. *)
Variables image encoding : Type.

(** [post_outcome k] is what the [k]-th outbound POST of the process (from
    0) ends in: an exception, or a response. *)
Variable post_outcome : nat -> exn + Response.

(** The file system at start-up: [os.path.exists] and [os.listdir]. *)
Variable path_exists : string -> bool.
Variable listdir : string -> exn + list string.

(** The Embedding Provider: decoding an image, extracting the embeddings of
    the faces in it, and the distance between two embeddings. *)
Variable load_image_file : image_source -> exn + image.
Variable face_encodings : image -> exn + list encoding.
Variable face_dist : encoding -> encoding -> float.

(** Every call that leaves the program towards a collaborator, in the order
    in which it is made.  [EvNotify] marks an invocation of the notifier
    [send_to_nodejs]. *)
Inductive event : Type :=
| EvCompareFaces (q : encoding)
| EvFaceDistance (q : encoding)
| EvNotify (data : pyval)
| EvPost (url : string) (body : pyval) (timeout : Z)
| EvSleep (secs : Z).

(** [posts] counts the outbound POSTs made so far. *)
Record world : Type := { posts : nat; trace : list event }.

Definition emit (ev : event) : Eff.M world unit :=
  Eff.modify (fun w => {| posts := posts w; trace := trace w ++ [ev] |}).

(** [requests.post(url, json=data, timeout=t)] *)
Definition requests_post (url : string) (data : pyval) (t : Z)
  : Eff.M world Response :=
  fun w =>
    (post_outcome (posts w),
     {| posts := S (posts w); trace := trace w ++ [EvPost url data t] |}).

(** [time.sleep(secs)] *)
Definition time_sleep (secs : Z) : Eff.M world unit := emit (EvSleep secs).

(** ** The notifier: [send_to_nodejs] (lines 67-97) *)

(** The dict of lines 86-90. *)
Definition partial_success (status : Z) : pyval :=
  PyDict [("status", PyStr "partial_success");
          ("message", PyStr "Data sent but Node.js returned non-200 status");
          ("node_status", PyInt status)].

(** One iteration of the [for] loop, lines 73-95.  [Some v]: the function
    returns [v]; [None]: the loop goes on. *)
Definition attempt_once (data : pyval) (retries attempt : Z)
  : Eff.M world (option pyval) :=
  Eff.try_except
    (response <- requests_post CONFIG.NODE_JS_URL data 5 ;;
     if (status_code response =? 200)%Z
     then (v <- Eff.lift (json response) ;; Eff.ret (Some v))
     else Eff.ret (Some (partial_success (status_code response))))
    [(is_RequestException,
      fun _ =>
        (if (attempt <? retries - 1)%Z
         then time_sleep CONFIG.RETRY_DELAY
         else Eff.ret tt) ;;;
        Eff.ret None)].

(** [for attempt in range(retries)], with [n] iterations left, then the
    [return None] of line 97. *)
Fixpoint for_attempts (data : pyval) (retries : Z) (n : nat) (attempt : Z)
  : Eff.M world pyval :=
  match n with
  | O => Eff.ret PyNone
  | S n' =>
      r <- attempt_once data retries attempt ;;
      match r with
      | Some v => Eff.ret v
      | None => for_attempts data retries n' (attempt + 1)
      end
  end.

Definition send_to_nodejs (data : pyval) (retries : Z) : Eff.M world pyval :=
  emit (EvNotify data) ;;;
  for_attempts data retries (Z.to_nat retries) 0.

(** ** The face_recognition comparisons *)

(** Modelled from the spec: [face_recognition.face_distance(known, q)], a
    library function, gives the distance from [q] to every known embedding,
    in order. *)
Definition face_recognition_face_distance (known : list encoding) (q : encoding)
  : list float :=
  map (fun k => face_dist k q) known.

(** Modelled from the spec: [face_recognition.compare_faces(known, q,
    tolerance)], a library function, flags every known embedding whose
    distance to [q] is at most the tolerance. *)
Definition face_recognition_compare_faces (known : list encoding) (q : encoding)
           (tolerance : float) : list bool :=
  map (fun d => (d <=? tolerance)%float) (face_recognition_face_distance known q).

(** ** The gallery loader: [load_known_faces] (lines 34-65) *)

(** The two lists the loader appends to. *)
Record faces : Type :=
  { known_face_encodings : list encoding; known_face_names : list string }.

Definition append_encoding (e : encoding) : Eff.M faces unit :=
  Eff.modify (fun s => {| known_face_encodings := known_face_encodings s ++ [e];
                          known_face_names := known_face_names s |}).

Definition append_name (n : string) : Eff.M faces unit :=
  Eff.modify (fun s => {| known_face_encodings := known_face_encodings s;
                          known_face_names := known_face_names s ++ [n] |}).

(** The body of the [for] loop, lines 47-63. *)
Definition load_face (filename : string) : Eff.M faces unit :=
  if endswith_any (lower filename) [".jpg"; ".jpeg"; ".png"]
  then
    let file_path := os_path_join CONFIG.FACE_FOLDER filename in
    Eff.try_except
      (image <- Eff.lift (load_image_file (FromPath file_path)) ;;
       face_encs <- Eff.lift (face_encodings image) ;;
       match face_encs with
       | face_encoding :: _ =>
           append_encoding face_encoding ;;;
           let name := fst (splitext filename) in
           append_name name
       | [] => Eff.ret tt
       end)
      [(is_Exception, fun _ => Eff.ret tt)]
  else Eff.ret tt.

Definition no_faces : faces :=
  {| known_face_encodings := []; known_face_names := [] |}.

(** The function returns the two lists; an exception of [os.listdir] is not
    caught and leaves the function. *)
Definition load_known_faces : exn + (list encoding * list string) :=
  let run : Eff.M faces unit :=
    if negb (path_exists CONFIG.FACE_FOLDER)
    then Eff.ret tt
    else (filenames <- Eff.lift (listdir CONFIG.FACE_FOLDER) ;;
          for_each load_face filenames) in
  match run no_faces with
  | (inl e, _) => inl e
  | (inr _, s) => inr (known_face_encodings s, known_face_names s)
  end.

(** ** The request handler: [compare_faces] (lines 102-191) *)

Definition error_body (message : string) : list (string * pyval) :=
  [("status", PyStr "error"); ("message", PyStr message)].

(** The body of lines 173-178. *)
Definition not_found_body : list (string * pyval) :=
  [("status", PyStr "not_found");
   ("message", PyStr "No Match Found");
   ("name", PyNone);
   ("confidence", PyStr "0%")].

(** [f'{confidence:.2f}%'] *)
Definition format_confidence (confidence : float) : string :=
  format_2f confidence ++ "%".

(** The Match Engine, lines 133-143: the comparison of one detected embedding
    with the gallery.  [Some (matched_name, confidence)] when [True in
    matches]. *)
Definition match_face (encs : list encoding) (names : list string)
           (face_encoding : encoding) : Eff.M world (option (string * float)) :=
  emit (EvCompareFaces face_encoding) ;;;
  let matches :=
    face_recognition_compare_faces encs face_encoding CONFIG.TOLERANCE in
  emit (EvFaceDistance face_encoding) ;;;
  let face_distances := face_recognition_face_distance encs face_encoding in
  if contains_true matches
  then
    best_match_index <-
      match index_true matches with
      | Some i => Eff.ret i
      | None => Eff.raise (OtherException "True is not in list")
      end ;;
    matched_name <-
      match nth_error names best_match_index with
      | Some n => Eff.ret n
      | None => Eff.raise (OtherException "list index out of range")
      end ;;
    distance <-
      match nth_error face_distances best_match_index with
      | Some d => Eff.ret d
      | None => Eff.raise (OtherException "index out of bounds")
      end ;;
    let confidence := ((1 - distance) * 100)%float in
    Eff.ret (Some (matched_name, confidence))
  else Eff.ret None.

(** The payload sent downstream and the success body, lines 148-158. *)
Definition result_data (matched_name : string) (confidence : float) : pyval :=
  PyDict [("name", PyStr matched_name);
          ("confidence", PyStr (format_confidence confidence))].

Definition success_body (matched_name : string) (confidence : float)
  : list (string * pyval) :=
  [("status", PyStr "success");
   ("message", PyStr ("Match Found! Name: " ++ matched_name));
   ("name", PyStr matched_name);
   ("confidence", PyStr (format_confidence confidence))].

(** Lines 147-171: the response for a match, with the notification when the
    confidence reaches the threshold. *)
Definition respond_match (matched_name : string) (confidence : float)
  : Eff.M world http_response :=
  let result_data := result_data matched_name confidence in
  let response_data := success_body matched_name confidence in
  response_data <-
    (if (CONFIG.MIN_CONFIDENCE <=? confidence)%float
     then
       nodejs_response <- send_to_nodejs result_data CONFIG.MAX_RETRIES ;;
       if truthy nodejs_response
       then Eff.ret (dict_set "node_response" nodejs_response response_data)
       else Eff.ret (dict_set "node_status"
                              (PyStr "Data sent but no response from Node.js")
                              response_data)
     else
       let response_data :=
         dict_set "message"
                  (PyStr ("Match found but confidence too low ("
                          ++ format_confidence confidence ++ ")"))
                  response_data in
       Eff.ret (dict_set "node_status"
                         (PyStr "Data not sent due to low confidence")
                         response_data)) ;;
  Eff.ret (jsonify response_data).

(** [for face_encoding in face_encodings] (lines 132-171), then the "not
    found" response of line 173. *)
Fixpoint for_face_encodings (encs : list encoding) (names : list string)
         (face_encs : list encoding) : Eff.M world http_response :=
  match face_encs with
  | [] => Eff.ret (jsonify not_found_body)
  | face_encoding :: rest =>
      m <- match_face encs names face_encoding ;;
      match m with
      | Some (matched_name, confidence) => respond_match matched_name confidence
      | None => for_face_encodings encs names rest
      end
  end.

(** The view function.  [encs] and [names] are the module-level
    [known_face_encodings] and [known_face_names] of line 100. *)
Definition compare_faces (encs : list encoding) (names : list string)
           (req : request) : Eff.M world http_response :=
  match files_get "image" (files req) with
  | None => Eff.ret (jsonify_with (error_body "No image uploaded") 400)
  | Some image_file =>
      Eff.try_except
        (let image_data := stream image_file in
         (match image_data with
          | [] => Eff.raise (FaceRecognitionError "Empty image data")
          | _ :: _ => Eff.ret tt
          end) ;;;
         image <- Eff.lift (load_image_file (FromBytes image_data)) ;;
         face_encs <- Eff.lift (face_encodings image) ;;
         match face_encs with
         | [] =>
             Eff.ret (jsonify_with
                        (error_body "No face detected in uploaded image") 400)
         | _ :: _ => for_face_encodings encs names face_encs
         end)
        [(is_FaceRecognitionError,
          fun e => Eff.ret (jsonify_with
                              (error_body ("Face recognition error: "
                                           ++ str_of_exn e)) 400));
         (is_Exception,
          fun e => Eff.ret (jsonify_with
                              (error_body ("Error processing the image: "
                                           ++ str_of_exn e)) 500))]
  end.

(** The world before any outbound call. *)
Definition world0 : world := {| posts := 0; trace := [] |}.

(** ** Observations on a trace *)

Definition is_post (ev : event) : bool :=
  match ev with EvPost _ _ _ => true | _ => false end.

Definition is_notify (ev : event) : bool :=
  match ev with EvNotify _ => true | _ => false end.

(** Outbound HTTP calls, and invocations of the notifier. *)
Definition outbound_calls (t : list event) : nat := List.length (filter is_post t).
Definition notifier_calls (t : list event) : nat := List.length (filter is_notify t).

(** The detected embeddings that were compared with the gallery, in order. *)
Definition compared (t : list event) : list encoding :=
  flat_map (fun ev => match ev with EvCompareFaces q => [q] | _ => [] end) t.

(** The calls of [n] attempts that all fail: [n] POSTs, with a sleep of
    [RETRY_DELAY] between two consecutive ones. *)
Fixpoint failed_attempts (data : pyval) (n : nat) : list event :=
  match n with
  | O => []
  | S n' =>
      EvPost CONFIG.NODE_JS_URL data 5
      :: match n' with
         | O => []
         | S _ => EvSleep CONFIG.RETRY_DELAY :: failed_attempts data n'
         end
  end.

(** The world after one more outbound call. *)
Definition after_post (data : pyval) (w : world) : world :=
  {| posts := S (posts w);
     trace := trace w ++ [EvPost CONFIG.NODE_JS_URL data 5] |}.

(** The [k]-th outbound call ends in a network-level error: [requests.post]
    raises a [RequestException]. *)
Definition network_error (k : nat) : Prop :=
  exists msg, post_outcome k = inl (RequestException msg).

(** The [k]-th attempt ends in the [except] clause: a network-level error, or
    a 200 response on which [response.json()] raises a [RequestException]. *)
Definition request_error (k : nat) : Prop :=
  network_error k
  \/ exists r msg, post_outcome k = inr r /\ status_code r = 200%Z
                   /\ json r = inl (RequestException msg).

(** [Failed] as the specification words it: [None] comes back after as many
    outbound calls as [retries] exactly when every attempt ended in a
    network-level error. *)
Definition failed_iff_network_errors (data : pyval) (retries : Z) (w : world)
  : Prop :=
  (exists w', send_to_nodejs data retries w = (inr PyNone, w')
              /\ posts w' = posts w + Z.to_nat retries)
  <-> (forall k, k < Z.to_nat retries -> network_error (posts w + k)).

(** ** Vocabulary for the handler *)

(** A gallery embedding matches the query: the distance is within
    [TOLERANCE]. *)
Definition within_tolerance (a q : encoding) : bool :=
  (face_dist a q <=? CONFIG.TOLERANCE)%float.

(** [(1 - distance) * 100] for a gallery embedding and the query. *)
Definition confidence_of (a q : encoding) : float :=
  ((1 - face_dist a q) * 100)%float.

(** The two library calls made for each compared embedding. *)
Definition compare_events (l : list encoding) : list event :=
  flat_map (fun q => [EvCompareFaces q; EvFaceDistance q]) l.

Definition after_compare (l : list encoding) (w : world) : world :=
  {| posts := posts w; trace := trace w ++ compare_events l |}.

(** What the Match Engine answers; it does not depend on the world. *)
Definition match_result (encs : list encoding) (names : list string)
           (q : encoding) : exn + option (string * float) :=
  fst (match_face encs names q world0).

(** The request carries an image part with bytes in it, in which the
    Embedding Provider detects the faces [face_encs]. *)
Definition detected (req : request) (face_encs : list encoding) : Prop :=
  exists image_file image,
    files_get "image" (files req) = Some image_file
    /\ stream image_file <> []
    /\ load_image_file (FromBytes (stream image_file)) = inr image
    /\ face_encodings image = inr face_encs.

(** requests raises nothing but [RequestException]s, from [post] and from
    [json()]. *)
Definition requests_contract : Prop :=
  forall k,
    match post_outcome k with
    | inl e => is_RequestException e = true
    | inr r =>
        match json r with
        | inl e => is_RequestException e = true
        | inr _ => True
        end
    end.

(** The body of a match below the threshold, lines 168-169. *)
Definition low_confidence_body (matched_name : string) (confidence : float)
  : list (string * pyval) :=
  [("status", PyStr "success");
   ("message", PyStr ("Match found but confidence too low ("
                      ++ format_confidence confidence ++ ")"));
   ("name", PyStr matched_name);
   ("confidence", PyStr (format_confidence confidence));
   ("node_status", PyStr "Data not sent due to low confidence")].

(** The response the two [except] clauses of the handler build, lines
    180-191. *)
Definition error_response (e : exn) : http_response :=
  if is_FaceRecognitionError e
  then jsonify_with (error_body ("Face recognition error: " ++ str_of_exn e)) 400
  else jsonify_with (error_body ("Error processing the image: " ++ str_of_exn e))
                    500.

(** The body of a match at or above the threshold, lines 163-166, for the
    value the notifier returned. *)
Definition notified_body (matched_name : string) (confidence : float)
           (nodejs_response : pyval) : list (string * pyval) :=
  success_body matched_name confidence
  ++ [if truthy nodejs_response
      then ("node_response", nodejs_response)
      else ("node_status", PyStr "Data sent but no response from Node.js")].

(** A stretch of trace with no notifier invocation and no comparison. *)
Definition quiet (t : list event) : Prop :=
  notifier_calls t = 0 /\ compared t = [].

(** ** The gallery as the specification describes it

    One entry per listed file whose name ends in an image suffix and in which
    a face is found: the first embedding, under the root of the file name.
    Files that fail to decode or show no face contribute nothing. *)
Definition entry_of (filename : string) : list (encoding * string) :=
  if endswith_any (lower filename) [".jpg"; ".jpeg"; ".png"]
  then
    match load_image_file
            (FromPath (os_path_join CONFIG.FACE_FOLDER filename)) with
    | inl _ => []
    | inr image =>
        match face_encodings image with
        | inr (e :: _) => [(e, fst (splitext filename))]
        | _ => []
        end
    end
  else [].

Definition gallery_of (filenames : list string) : list (encoding * string) :=
  flat_map entry_of filenames.

(** ** Vocabulary for the further properties *)

Definition is_sleep (ev : event) : bool :=
  match ev with EvSleep _ => true | _ => false end.

(** Calls of [time.sleep] in a trace. *)
Definition sleeps (t : list event) : nat := List.length (filter is_sleep t).

(** The calls of [k] failed attempts that are each followed by a retry: a
    POST and a sleep, [k] times. *)
Fixpoint retried_attempts (data : pyval) (k : nat) : list event :=
  match k with
  | O => []
  | S k' =>
      EvPost CONFIG.NODE_JS_URL data 5
      :: EvSleep CONFIG.RETRY_DELAY :: retried_attempts data k'
  end.

(** The [k]-th outbound call is answered, and the answer makes the notifier
    return [v]: the parsed body of a 200, or the partial-success dict of
    another status. *)
Definition answered (k : nat) (v : pyval) : Prop :=
  exists r,
    post_outcome k = inr r
    /\ ((status_code r = 200%Z /\ json r = inr v)
        \/ (status_code r <> 200%Z /\ v = partial_success (status_code r))).

(** The [k]-th attempt raises [e], which the [except] clause of the notifier
    does not catch: from [requests.post], or from [response.json()] on a
    200. *)
Definition raises_uncaught (k : nat) (e : exn) : Prop :=
  is_RequestException e = false
  /\ (post_outcome k = inl e
      \/ exists r, post_outcome k = inr r /\ status_code r = 200%Z
                   /\ json r = inl e).

(** What the notifier may leave in the trace after its [EvNotify]: POSTs of
    [data] to the configured URL with the 5 second timeout, and sleeps of
    [RETRY_DELAY]. *)
Definition notifier_event (data : pyval) (ev : event) : Prop :=
  ev = EvPost CONFIG.NODE_JS_URL data 5 \/ ev = EvSleep CONFIG.RETRY_DELAY.

(** ** Facts: the notifier *)

Lemma attempt_once_request_error data retries attempt w :
  request_error (posts w) ->
  attempt_once data retries attempt w =
  (inr None,
   {| posts := S (posts w);
      trace := trace w ++ EvPost CONFIG.NODE_JS_URL data 5
                 :: (if (attempt <? retries - 1)%Z
                     then [EvSleep CONFIG.RETRY_DELAY] else []) |}).
Proof.
  intros [[msg H] | (r & msg & H & H200 & Hj)];
    unfold attempt_once, Eff.try_except, Eff.bind, requests_post; rewrite H.
  - cbn. destruct (attempt <? retries - 1)%Z; cbn.
    + now rewrite <- app_assoc.
    + reflexivity.
  - rewrite H200. cbn. rewrite Hj. cbn.
    destruct (attempt <? retries - 1)%Z; cbn.
    + now rewrite <- app_assoc.
    + reflexivity.
Qed.

Lemma attempt_once_200 data retries attempt w r v :
  post_outcome (posts w) = inr r -> status_code r = 200%Z -> json r = inr v ->
  attempt_once data retries attempt w = (inr (Some v), after_post data w).
Proof.
  intros H H200 Hj.
  unfold attempt_once, Eff.try_except, Eff.bind, requests_post.
  rewrite H, H200. cbn. now rewrite Hj.
Qed.

Lemma attempt_once_other_status data retries attempt w r :
  post_outcome (posts w) = inr r -> status_code r <> 200%Z ->
  attempt_once data retries attempt w =
  (inr (Some (partial_success (status_code r))), after_post data w).
Proof.
  intros H Hs.
  unfold attempt_once, Eff.try_except, Eff.bind, requests_post.
  rewrite H. apply Z.eqb_neq in Hs. now rewrite Hs.
Qed.

(** The four ways an attempt can end. *)
Lemma attempt_once_cases data retries attempt w :
  (request_error (posts w)
   /\ exists w1, attempt_once data retries attempt w = (inr None, w1)
                 /\ posts w1 = S (posts w))
  \/ (exists r v, post_outcome (posts w) = inr r /\ status_code r = 200%Z
                  /\ json r = inr v
                  /\ attempt_once data retries attempt w
                     = (inr (Some v), after_post data w))
  \/ (exists r, post_outcome (posts w) = inr r /\ status_code r <> 200%Z
                /\ attempt_once data retries attempt w
                   = (inr (Some (partial_success (status_code r))),
                      after_post data w))
  \/ (exists e w1, attempt_once data retries attempt w = (inl e, w1)).
Proof.
  destruct (post_outcome (posts w)) as [e | r] eqn:H.
  - destruct e as [m | m | m].
    + right; right; right.
      unfold attempt_once, Eff.try_except, Eff.bind, requests_post.
      rewrite H. cbn. unfold Eff.raise. eauto.
    + left. assert (Hre : request_error (posts w)) by (left; eexists; eassumption).
      split; [exact Hre |].
      rewrite (attempt_once_request_error data retries attempt w Hre).
      eexists; split; reflexivity.
    + right; right; right.
      unfold attempt_once, Eff.try_except, Eff.bind, requests_post.
      rewrite H. cbn. unfold Eff.raise. eauto.
  - destruct (Z.eq_dec (status_code r) 200) as [H200 | Hs].
    + destruct (json r) as [e | v] eqn:Hj.
      * destruct e as [m | m | m].
        -- right; right; right.
           unfold attempt_once, Eff.try_except, Eff.bind, requests_post.
           rewrite H, H200. cbn. rewrite Hj. cbn. unfold Eff.raise. eauto.
        -- left.
           assert (Hre : request_error (posts w))
             by (right; exists r, m; auto).
           split; [exact Hre |].
           rewrite (attempt_once_request_error data retries attempt w Hre).
           eexists; split; reflexivity.
        -- right; right; right.
           unfold attempt_once, Eff.try_except, Eff.bind, requests_post.
           rewrite H, H200. cbn. rewrite Hj. cbn. unfold Eff.raise. eauto.
      * right; left. exists r, v. repeat split; auto.
        now apply attempt_once_200 with (r := r).
    + right; right; left. exists r. repeat split; auto.
      now apply attempt_once_other_status.
Qed.

(** When every remaining attempt fails, the loop runs to its end. *)
Lemma for_attempts_all_fail data retries n : forall attempt w,
  (attempt + Z.of_nat n = retries)%Z ->
  (forall k, k < n -> request_error (posts w + k)) ->
  for_attempts data retries n attempt w =
  (inr PyNone,
   {| posts := posts w + n; trace := trace w ++ failed_attempts data n |}).
Proof.
  induction n as [| n IH]; intros attempt w Hn Hall.
  - cbn. rewrite Nat.add_0_r, app_nil_r. now destruct w.
  - assert (H0 : request_error (posts w)).
    { specialize (Hall 0). rewrite Nat.add_0_r in Hall. apply Hall. lia. }
    cbn [for_attempts]. unfold Eff.bind.
    rewrite (attempt_once_request_error data retries attempt w H0).
    rewrite (IH (attempt + 1)%Z).
    + cbn [posts trace]. f_equal. f_equal.
      * lia.
      * rewrite <- app_assoc. f_equal. cbn [failed_attempts app]. f_equal.
        destruct n as [| n'].
        -- assert (Hlt : (attempt <? retries - 1)%Z = false)
             by (apply Z.ltb_ge; lia).
           now rewrite Hlt.
        -- assert (Hlt : (attempt <? retries - 1)%Z = true)
             by (apply Z.ltb_lt; lia).
           now rewrite Hlt.
    + lia.
    + intros k Hk. cbn [posts].
      replace (S (posts w) + k) with (posts w + S k) by lia.
      apply Hall. lia.
Qed.

(** When the loop returns [None], either every attempt failed, or the first
    attempt that did not fail was answered by a 200 whose body is [null]. *)
Lemma for_attempts_none data retries n : forall attempt w w',
  for_attempts data retries n attempt w = (inr PyNone, w') ->
  (forall k, k < n -> request_error (posts w + k))
  \/ exists k r, k < n
                /\ (forall j, j < k -> request_error (posts w + j))
                /\ post_outcome (posts w + k) = inr r
                /\ status_code r = 200%Z /\ json r = inr PyNone.
Proof.
  induction n as [| n IH]; intros attempt w w' H.
  - left. intros k Hk. lia.
  - cbn [for_attempts] in H. unfold Eff.bind in H.
    destruct (attempt_once_cases data retries attempt w)
      as [(Hre & w1 & Hw1 & Hp) | [(r & v & Ho & H200 & Hj & Ha)
           | [(r & Ho & Hs & Ha) | (e & w1 & Ha)]]].
    + rewrite Hw1 in H. apply IH in H.
      destruct H as [Hall | (k & r & Hk & Hbefore & Ho & H200 & Hj)].
      * left. intros [| k] Hk.
        -- now rewrite Nat.add_0_r.
        -- replace (posts w + S k) with (posts w1 + k) by lia.
           apply Hall. lia.
      * right. exists (S k), r. repeat split; auto.
        -- lia.
        -- intros [| j] Hj'.
           ++ now rewrite Nat.add_0_r.
           ++ replace (posts w + S j) with (posts w1 + j) by lia.
              apply Hbefore. lia.
        -- replace (posts w + S k) with (posts w1 + k) by lia. exact Ho.
    + rewrite Ha in H. cbn in H. injection H as Hv _. subst v.
      right. exists 0, r. rewrite Nat.add_0_r. repeat split; auto.
      * lia.
      * intros j Hj'. lia.
    + rewrite Ha in H. cbn in H. discriminate H.
    + rewrite Ha in H. discriminate H.
Qed.

Lemma network_error_request_error k : network_error k -> request_error k.
Proof. intros H. now left. Qed.

Lemma outbound_calls_failed_attempts data n :
  outbound_calls (failed_attempts data n) = n.
Proof.
  unfold outbound_calls.
  induction n as [| [| n] IH]; cbn in *; auto.
Qed.

(** The world after one invocation of the notifier that made a single
    outbound call. *)
Lemma send_to_nodejs_200 data retries w r v :
  (0 < retries)%Z ->
  post_outcome (posts w) = inr r -> status_code r = 200%Z -> json r = inr v ->
  send_to_nodejs data retries w =
  (inr v,
   {| posts := S (posts w);
      trace := trace w ++ [EvNotify data; EvPost CONFIG.NODE_JS_URL data 5] |}).
Proof.
  intros Hpos Ho H200 Hj.
  unfold send_to_nodejs, Eff.bind, emit, Eff.modify.
  set (w1 := {| posts := posts w; trace := trace w ++ [EvNotify data] |}).
  destruct (Z.to_nat retries) as [| n] eqn:Hn; [lia |].
  cbn [for_attempts]. unfold Eff.bind.
  change (post_outcome (posts w1) = inr r) in Ho.
  rewrite (attempt_once_200 data retries 0 w1 r v Ho H200 Hj).
  unfold after_post, Eff.ret. cbn [posts trace w1].
  now rewrite <- app_assoc.
Qed.

Lemma send_to_nodejs_other_status data retries w r :
  (0 < retries)%Z ->
  post_outcome (posts w) = inr r -> status_code r <> 200%Z ->
  send_to_nodejs data retries w =
  (inr (partial_success (status_code r)),
   {| posts := S (posts w);
      trace := trace w ++ [EvNotify data; EvPost CONFIG.NODE_JS_URL data 5] |}).
Proof.
  intros Hpos Ho Hs.
  unfold send_to_nodejs, Eff.bind, emit, Eff.modify.
  set (w1 := {| posts := posts w; trace := trace w ++ [EvNotify data] |}).
  destruct (Z.to_nat retries) as [| n] eqn:Hn; [lia |].
  cbn [for_attempts]. unfold Eff.bind.
  change (post_outcome (posts w1) = inr r) in Ho.
  rewrite (attempt_once_other_status data retries 0 w1 r Ho Hs).
  unfold after_post, Eff.ret. cbn [posts trace w1].
  now rewrite <- app_assoc.
Qed.

Lemma send_to_nodejs_all_fail data retries w :
  (forall k, k < Z.to_nat retries -> request_error (posts w + k)) ->
  send_to_nodejs data retries w =
  (inr PyNone,
   {| posts := posts w + Z.to_nat retries;
      trace := trace w ++ EvNotify data
                 :: failed_attempts data (Z.to_nat retries) |}).
Proof.
  intros Hall.
  unfold send_to_nodejs, Eff.bind, emit, Eff.modify.
  set (w1 := {| posts := posts w; trace := trace w ++ [EvNotify data] |}).
  destruct (Z.le_gt_cases 0 retries) as [Hr | Hr].
  - rewrite (for_attempts_all_fail data retries (Z.to_nat retries) 0 w1).
    + cbn [posts trace w1]. now rewrite <- app_assoc.
    + lia.
    + exact Hall.
  - replace (Z.to_nat retries) with 0 by lia.
    cbn. unfold Eff.ret, w1. now rewrite Nat.add_0_r.
Qed.

Lemma send_to_nodejs_none data retries w w' :
  send_to_nodejs data retries w = (inr PyNone, w') ->
  (forall k, k < Z.to_nat retries -> request_error (posts w + k))
  \/ exists k r,
      k < Z.to_nat retries
      /\ (forall j, j < k -> request_error (posts w + j))
      /\ post_outcome (posts w + k) = inr r
      /\ status_code r = 200%Z /\ json r = inr PyNone.
Proof.
  unfold send_to_nodejs, Eff.bind, emit, Eff.modify.
  intros H.
  apply (for_attempts_none data retries (Z.to_nat retries) 0
           {| posts := posts w; trace := trace w ++ [EvNotify data] |} w') in H.
  exact H.
Qed.

(** ** Facts: the first [True] of a list of flags *)

Lemma index_true_map {A} (f : A -> bool) (l : list A) : forall i a,
  nth_error l i = Some a -> f a = true ->
  (forall j b, j < i -> nth_error l j = Some b -> f b = false) ->
  index_true (map f l) = Some i.
Proof.
  induction l as [| x l IH]; intros [| i] a Hi Ha Hbefore; cbn in *;
    try discriminate.
  - injection Hi as ->. now rewrite Ha.
  - rewrite (Hbefore 0 x) by (cbn; auto with arith).
    rewrite (IH i a Hi Ha); [reflexivity |].
    intros j b Hj Hb. apply (Hbefore (S j) b); [lia | exact Hb].
Qed.

Lemma contains_true_map {A} (f : A -> bool) (l : list A) :
  contains_true (map f l) = existsb f l.
Proof.
  unfold contains_true. induction l as [| x l IH]; cbn; [reflexivity |].
  now rewrite IH.
Qed.

Lemma index_true_bound (l : list bool) i :
  index_true l = Some i -> i < List.length l.
Proof.
  revert i. induction l as [| [|] l IH]; intros i H; cbn in *.
  - discriminate.
  - injection H as <-. lia.
  - destruct (index_true l) as [k |]; cbn in H; [| discriminate].
    injection H as <-. specialize (IH k eq_refl). lia.
Qed.

Lemma contains_true_index (l : list bool) :
  contains_true l = true -> exists i, index_true l = Some i.
Proof.
  unfold contains_true.
  induction l as [| [|] l IH]; cbn; intros H.
  - discriminate.
  - now exists 0.
  - destruct (IH H) as [i Hi]. exists (S i). now rewrite Hi.
Qed.

(** Among the entries that satisfy [f], one comes first. *)
Lemma first_satisfying {A} (f : A -> bool) (l : list A) :
  (exists a, In a l /\ f a = true) ->
  exists i a, nth_error l i = Some a /\ f a = true
              /\ (forall j b, nth_error l j = Some b -> f b = true -> i <= j).
Proof.
  induction l as [| x l IH]; intros (a & Hin & Ha).
  - destruct Hin.
  - destruct (f x) eqn:Hx.
    + exists 0, x. repeat split; auto. intros; lia.
    + destruct Hin as [-> | Hin]; [congruence |].
      destruct IH as (i & a' & Hi & Ha' & Hmin); [now exists a |].
      exists (S i), a'. repeat split; auto.
      intros [| j] b Hj Hb; cbn in Hj.
      * congruence.
      * specialize (Hmin j b Hj Hb). lia.
Qed.

(** ** Facts: the Match Engine *)

Lemma compare_faces_flags (encs : list encoding) (q : encoding) :
  face_recognition_compare_faces encs q CONFIG.TOLERANCE
  = map (fun a => within_tolerance a q) encs.
Proof.
  unfold face_recognition_compare_faces, face_recognition_face_distance.
  now rewrite map_map.
Qed.

(** The engine makes its two library calls and no outbound call, and its
    answer does not depend on the world. *)
Lemma match_face_run encs names q w :
  match_face encs names q w = (match_result encs names q, after_compare [q] w).
Proof.
  unfold match_result, match_face, after_compare, compare_events.
  unfold Eff.bind, emit, Eff.modify. cbn [flat_map app posts trace world0].
  rewrite <- app_assoc. cbn [app].
  destruct (contains_true _); [| reflexivity].
  destruct (index_true _) as [i |]; [| reflexivity].
  unfold Eff.ret, Eff.raise.
  destruct (nth_error names i); [| reflexivity].
  destruct (nth_error _ i); reflexivity.
Qed.

(** The entry returned is the first one within the tolerance. *)
Lemma match_result_first encs names q i a name :
  nth_error encs i = Some a -> within_tolerance a q = true ->
  (forall j b, nth_error encs j = Some b -> within_tolerance b q = true ->
               i <= j) ->
  nth_error names i = Some name ->
  match_result encs names q = inr (Some (name, confidence_of a q)).
Proof.
  intros Hi Ha Hmin Hname.
  assert (Hidx : index_true (map (fun a => within_tolerance a q) encs) = Some i).
  { apply index_true_map with (a := a); auto.
    intros j b Hj Hb. destruct (within_tolerance b q) eqn:Hw; [| reflexivity].
    specialize (Hmin j b Hb Hw). lia. }
  assert (Hex : existsb (fun a => within_tolerance a q) encs = true).
  { apply existsb_exists. exists a. split; [| exact Ha].
    now apply nth_error_In with (n := i). }
  unfold match_result, match_face, Eff.bind, emit, Eff.modify.
  cbn [fst posts trace world0].
  rewrite compare_faces_flags, contains_true_map, Hex, Hidx.
  unfold Eff.ret. rewrite Hname.
  unfold face_recognition_face_distance.
  rewrite (map_nth_error (fun k => face_dist k q) i encs Hi).
  reflexivity.
Qed.

(** With no entry within the tolerance, there is no match. *)
Lemma match_result_none encs names q :
  (forall a, In a encs -> within_tolerance a q = false) ->
  match_result encs names q = inr None.
Proof.
  intros Hnone.
  assert (Hex : existsb (fun a => within_tolerance a q) encs = false).
  { apply not_true_is_false. intros H. apply existsb_exists in H.
    destruct H as (a & Hin & Ha). rewrite (Hnone a Hin) in Ha. discriminate. }
  unfold match_result, match_face, Eff.bind, emit, Eff.modify.
  cbn [fst posts trace world0].
  now rewrite compare_faces_flags, contains_true_map, Hex.
Qed.

(** ** Facts: traces *)

Lemma notifier_calls_app t1 t2 :
  notifier_calls (t1 ++ t2) = notifier_calls t1 + notifier_calls t2.
Proof. unfold notifier_calls. now rewrite filter_app, length_app. Qed.

Lemma compared_app t1 t2 : compared (t1 ++ t2) = compared t1 ++ compared t2.
Proof. unfold compared. now rewrite flat_map_app. Qed.

Lemma notifier_calls_compare_events l : notifier_calls (compare_events l) = 0.
Proof. induction l as [| q l IH]; cbn; auto. Qed.

Lemma compared_compare_events l : compared (compare_events l) = l.
Proof. induction l as [| q l IH]; cbn; [reflexivity |]. now f_equal. Qed.

Lemma compare_events_app l1 l2 :
  compare_events (l1 ++ l2) = compare_events l1 ++ compare_events l2.
Proof. unfold compare_events. now rewrite flat_map_app. Qed.

Lemma after_compare_cons q l w :
  after_compare l (after_compare [q] w) = after_compare (q :: l) w.
Proof.
  unfold after_compare. cbn [posts trace]. f_equal.
  rewrite <- app_assoc. f_equal.
Qed.

Lemma quiet_app t1 t2 : quiet t1 -> quiet t2 -> quiet (t1 ++ t2).
Proof.
  intros [H1 H1'] [H2 H2']. split.
  - rewrite notifier_calls_app. lia.
  - rewrite compared_app, H1', H2'. reflexivity.
Qed.

Lemma attempt_once_trace data retries attempt w :
  exists t, trace (snd (attempt_once data retries attempt w)) = trace w ++ t
            /\ quiet t.
Proof.
  unfold attempt_once, Eff.try_except, Eff.bind, requests_post.
  destruct (post_outcome (posts w)) as [e | r].
  - destruct e; cbn; unfold Eff.raise; cbn;
      try (eexists; split; [reflexivity | split; reflexivity]).
    destruct (attempt <? retries - 1)%Z; cbn.
    + rewrite <- app_assoc. eexists; split; [reflexivity | split; reflexivity].
    + eexists; split; [reflexivity | split; reflexivity].
  - destruct (status_code r =? 200)%Z; cbn.
    + destruct (json r) as [e | v]; cbn.
      * destruct e; cbn; unfold Eff.raise; cbn;
          try (eexists; split; [reflexivity | split; reflexivity]).
        destruct (attempt <? retries - 1)%Z; cbn.
        -- rewrite <- app_assoc.
           eexists; split; [reflexivity | split; reflexivity].
        -- eexists; split; [reflexivity | split; reflexivity].
      * eexists; split; [reflexivity | split; reflexivity].
    + eexists; split; [reflexivity | split; reflexivity].
Qed.

Lemma for_attempts_trace data retries n : forall attempt w,
  exists t, trace (snd (for_attempts data retries n attempt w)) = trace w ++ t
            /\ quiet t.
Proof.
  induction n as [| n IH]; intros attempt w.
  - exists []. cbn. rewrite app_nil_r. repeat split.
  - cbn [for_attempts]. unfold Eff.bind.
    destruct (attempt_once_trace data retries attempt w) as (t1 & Ht1 & Hq1).
    destruct (attempt_once data retries attempt w) as [[e | [v |]] w1];
      cbn [snd] in *.
    + now exists t1.
    + now exists t1.
    + destruct (IH (attempt + 1)%Z w1) as (t2 & Ht2 & Hq2).
      exists (t1 ++ t2). split.
      * now rewrite Ht2, Ht1, app_assoc.
      * now apply quiet_app.
Qed.

(** One invocation of the notifier leaves one [EvNotify] in the trace,
    followed by outbound calls and sleeps only. *)
Lemma send_to_nodejs_trace data retries w :
  exists t, trace (snd (send_to_nodejs data retries w))
            = trace w ++ EvNotify data :: t
            /\ quiet t.
Proof.
  unfold send_to_nodejs, Eff.bind, emit, Eff.modify.
  destruct (for_attempts_trace data retries (Z.to_nat retries) 0
              {| posts := posts w; trace := trace w ++ [EvNotify data] |})
    as (t & Ht & Hq).
  exists t. split; [| exact Hq].
  rewrite Ht. cbn [trace]. now rewrite <- app_assoc.
Qed.

(** Under the contract of requests, the notifier returns a value. *)
Lemma for_attempts_returns data retries n :
  requests_contract ->
  forall attempt w, exists v w', for_attempts data retries n attempt w = (inr v, w').
Proof.
  intros Hc. induction n as [| n IH]; intros attempt w.
  - cbn. unfold Eff.ret. eauto.
  - cbn [for_attempts]. unfold Eff.bind.
    destruct (attempt_once_cases data retries attempt w)
      as [(_ & w1 & Hw1 & _) | [(r & v & _ & _ & _ & Ha)
           | [(r & _ & _ & Ha) | (e & w1 & Ha)]]].
    + rewrite Hw1. apply IH.
    + rewrite Ha. unfold Eff.ret. eauto.
    + rewrite Ha. unfold Eff.ret. eauto.
    + exfalso. specialize (Hc (posts w)).
      unfold attempt_once, Eff.try_except, Eff.bind, requests_post in Ha.
      destruct (post_outcome (posts w)) as [e0 | r].
      * destruct e0; cbn in Hc; try discriminate Hc.
        cbn in Ha. destruct (attempt <? retries - 1)%Z; discriminate Ha.
      * destruct (status_code r =? 200)%Z; cbn in Ha; [| discriminate Ha].
        destruct (json r) as [e0 | v]; cbn in Ha; [| discriminate Ha].
        destruct e0; cbn in Hc; try discriminate Hc.
        cbn in Ha. destruct (attempt <? retries - 1)%Z; discriminate Ha.
Qed.

Lemma send_to_nodejs_returns data retries w :
  requests_contract ->
  exists v w', send_to_nodejs data retries w = (inr v, w').
Proof.
  intros Hc. unfold send_to_nodejs, Eff.bind, emit, Eff.modify.
  apply for_attempts_returns. exact Hc.
Qed.

(** ** Facts: comparing floats *)

Lemma SFcompare_Lt_Gt x y : SFcompare x y = Some Lt -> SFcompare y x = Some Gt.
Proof.
  destruct x as [sx | sx | | sx mx ex], y as [sy | sy | | sy my ey]; cbn;
    try discriminate; try (destruct sx; discriminate);
    try (destruct sy; discriminate);
    try (destruct sx, sy; (discriminate || reflexivity)).
  destruct sx, sy; try discriminate; try reflexivity;
    rewrite (Z.compare_antisym ex ey);
    destruct (ex ?= ey)%Z; cbn; try discriminate; try reflexivity;
    change (Pos.compare_cont Eq my mx) with (my ?= mx)%positive;
    change (Pos.compare_cont Eq mx my) with (mx ?= my)%positive;
    rewrite (Pos.compare_antisym mx my);
    destruct (mx ?= my)%positive; cbn; try discriminate; reflexivity.
Qed.

(** [x < y] excludes [x >= y]. *)
Lemma ltb_not_leb (x y : float) :
  (x <? y)%float = true -> (y <=? x)%float = false.
Proof.
  rewrite ltb_spec, leb_spec. unfold SFltb, SFleb.
  destruct (SFcompare (Prim2SF x) (Prim2SF y)) as [[| |] |] eqn:H;
    try discriminate.
  intros _. now rewrite (SFcompare_Lt_Gt _ _ H).
Qed.

(** ** Facts: the response for a match *)

(** Below the threshold nothing leaves the program. *)
Lemma respond_match_low name c w :
  (CONFIG.MIN_CONFIDENCE <=? c)%float = false ->
  respond_match name c w = (inr (jsonify (low_confidence_body name c)), w).
Proof.
  intros H. unfold respond_match, Eff.bind. rewrite H. reflexivity.
Qed.

(** At or above it the notifier runs once, and what it returns goes into the
    body; an exception it lets through leaves the function. *)
Lemma respond_match_high name c w :
  (CONFIG.MIN_CONFIDENCE <=? c)%float = true ->
  respond_match name c w =
  match send_to_nodejs (result_data name c) CONFIG.MAX_RETRIES w with
  | (inl e, w') => (inl e, w')
  | (inr v, w') => (inr (jsonify (notified_body name c v)), w')
  end.
Proof.
  intros H. unfold respond_match, Eff.bind. rewrite H.
  destruct (send_to_nodejs _ _ w) as [[e | v] w']; [reflexivity |].
  unfold notified_body. destruct (truthy v); reflexivity.
Qed.

Lemma respond_match_trace name c w :
  exists t, trace (snd (respond_match name c w)) = trace w ++ t
            /\ notifier_calls t <= 1 /\ compared t = []
            /\ ((CONFIG.MIN_CONFIDENCE <=? c)%float = true ->
                notifier_calls t = 1)
            /\ ((CONFIG.MIN_CONFIDENCE <=? c)%float = false -> t = []).
Proof.
  destruct (CONFIG.MIN_CONFIDENCE <=? c)%float eqn:H.
  - rewrite (respond_match_high name c w H).
    destruct (send_to_nodejs_trace (result_data name c) CONFIG.MAX_RETRIES w)
      as (t & Ht & Hq1 & Hq2).
    exists (EvNotify (result_data name c) :: t).
    assert (Hn : notifier_calls (EvNotify (result_data name c) :: t) = 1).
    { change (EvNotify (result_data name c) :: t)
        with ([EvNotify (result_data name c)] ++ t).
      rewrite notifier_calls_app, Hq1. reflexivity. }
    destruct (send_to_nodejs _ _ w) as [[e | v] w']; cbn [snd] in *;
      (split; [exact Ht |]); (split; [lia |]); (split; [exact Hq2 |]);
      (split; [auto | discriminate]).
  - rewrite (respond_match_low name c w H). exists []. cbn [snd].
    rewrite app_nil_r. repeat split; auto. discriminate.
Qed.

(** ** Facts: the loop over the detected faces *)

(** Faces without a match are passed over; the first face with a match
    decides the response, and the faces after it play no part. *)
Lemma for_face_encodings_first_match encs names pre : forall q rest name c w,
  (forall p, In p pre -> match_result encs names p = inr None) ->
  match_result encs names q = inr (Some (name, c)) ->
  for_face_encodings encs names (pre ++ q :: rest) w
  = respond_match name c (after_compare (pre ++ [q]) w).
Proof.
  induction pre as [| p pre IH]; intros q rest name c w Hpre Hq.
  - cbn [app for_face_encodings]. unfold Eff.bind.
    now rewrite match_face_run, Hq.
  - cbn [app for_face_encodings]. unfold Eff.bind.
    rewrite match_face_run, (Hpre p) by (now left).
    rewrite (IH q rest name c); [| intros; apply Hpre; now right | exact Hq].
    now rewrite after_compare_cons.
Qed.

Lemma for_face_encodings_no_match encs names l : forall w,
  (forall p, In p l -> match_result encs names p = inr None) ->
  for_face_encodings encs names l w
  = (inr (jsonify not_found_body), after_compare l w).
Proof.
  induction l as [| p l IH]; intros w Hl.
  - cbn. unfold Eff.ret, after_compare. cbn. rewrite app_nil_r.
    now destruct w.
  - cbn [for_face_encodings]. unfold Eff.bind.
    rewrite match_face_run, (Hl p) by (now left).
    rewrite IH by (intros; apply Hl; now right).
    now rewrite after_compare_cons.
Qed.

Lemma for_face_encodings_notifier_calls encs names l : forall w,
  notifier_calls (trace (snd (for_face_encodings encs names l w)))
  <= notifier_calls (trace w) + 1.
Proof.
  induction l as [| p l IH]; intros w.
  - cbn. lia.
  - cbn [for_face_encodings]. unfold Eff.bind. rewrite match_face_run.
    assert (Hw : notifier_calls (trace (after_compare [p] w))
                 = notifier_calls (trace w)).
    { unfold after_compare. cbn [trace].
      rewrite notifier_calls_app, notifier_calls_compare_events. lia. }
    destruct (match_result encs names p) as [e | [[name c] |]].
    + cbn [snd]. lia.
    + destruct (respond_match_trace name c (after_compare [p] w))
        as (t & Ht & Hle & _).
      rewrite Ht, notifier_calls_app. lia.
    + specialize (IH (after_compare [p] w)). lia.
Qed.

(** ** Facts: the view function *)

(** With faces detected in the upload, the handler is the loop inside the
    two [except] clauses: it always returns a response. *)
Lemma compare_faces_detected encs names req l w :
  detected req l -> l <> [] ->
  compare_faces encs names req w =
  match for_face_encodings encs names l w with
  | (inl e, w') => (inr (error_response e), w')
  | (inr r, w') => (inr r, w')
  end.
Proof.
  intros (image_file & img & Hf & Hs & Hl & He) Hne.
  destruct l as [| q l]; [congruence |].
  unfold compare_faces. rewrite Hf.
  unfold Eff.try_except, Eff.bind.
  destruct (stream image_file) as [| b data] eqn:Hd; [congruence |].
  unfold Eff.ret at 1. rewrite Hl. cbn [Eff.lift]. unfold Eff.ret at 1.
  rewrite He. cbn [Eff.lift]. unfold Eff.ret at 1.
  destruct (for_face_encodings encs names (q :: l) w) as [[e | r] w'];
    [| reflexivity].
  destruct e; reflexivity.
Qed.

(** With a first matching face, the handler is the response for that match
    inside the two [except] clauses. *)
Lemma compare_faces_first_match encs names req pre q rest name c w :
  detected req (pre ++ q :: rest) ->
  (forall p, In p pre -> match_result encs names p = inr None) ->
  match_result encs names q = inr (Some (name, c)) ->
  compare_faces encs names req w =
  match respond_match name c (after_compare (pre ++ [q]) w) with
  | (inl e, w') => (inr (error_response e), w')
  | (inr r, w') => (inr r, w')
  end.
Proof.
  intros Hd Hpre Hq.
  rewrite (compare_faces_detected encs names req (pre ++ q :: rest) w Hd)
    by (destruct pre; discriminate).
  now rewrite (for_face_encodings_first_match encs names pre q rest name c w).
Qed.

(** The handler never lets an exception out, and never notifies twice. *)
Lemma compare_faces_notifier_calls encs names req w :
  notifier_calls (trace (snd (compare_faces encs names req w)))
  <= notifier_calls (trace w) + 1.
Proof.
  unfold compare_faces.
  destruct (files_get "image" (files req)) as [image_file |];
    [| cbn; lia].
  unfold Eff.try_except, Eff.bind.
  destruct (stream image_file) as [| b data]; [cbn; lia |].
  unfold Eff.ret at 1.
  destruct (load_image_file _) as [e | img];
    [destruct e; cbn; lia |].
  cbn [Eff.lift]. unfold Eff.ret at 1.
  destruct (face_encodings img) as [e | [| q l]];
    [destruct e; cbn; lia | cbn; lia |].
  cbn [Eff.lift]. unfold Eff.ret at 1.
  pose proof (for_face_encodings_notifier_calls encs names (q :: l) w) as H.
  destruct (for_face_encodings encs names (q :: l) w) as [[e | r] w'];
    cbn [snd] in *; [destruct e; cbn; exact H | exact H].
Qed.

(** Whatever the notifier returns, the response for a match is a 200 that
    carries the name and the formatted confidence. *)
Lemma respond_match_fields name c w r w' :
  respond_match name c w = (inr r, w') ->
  status r = 200%Z
  /\ field "status" (body r) = Some (PyStr "success")
  /\ field "name" (body r) = Some (PyStr name)
  /\ field "confidence" (body r) = Some (PyStr (format_confidence c)).
Proof.
  destruct (CONFIG.MIN_CONFIDENCE <=? c)%float eqn:Hc.
  - rewrite (respond_match_high name c w Hc).
    destruct (send_to_nodejs _ _ w) as [[e | v] w1]; [discriminate |].
    intros H. injection H as <- _. repeat split.
  - rewrite (respond_match_low name c w Hc).
    intros H. injection H as <- _. repeat split.
Qed.

Lemma error_response_status e : status (error_response e) <> 200%Z.
Proof. unfold error_response. destruct (is_FaceRecognitionError e); discriminate. Qed.

(** ** Facts: file names *)

Lemma length_append (s1 s2 : string) :
  String.length (s1 ++ s2)%string = String.length s1 + String.length s2.
Proof. induction s1 as [| c s1 IH]; cbn; [reflexivity | now rewrite IH]. Qed.

Lemma length_lower (s : string) : String.length (lower s) = String.length s.
Proof. induction s as [| c s IH]; cbn; [reflexivity | now rewrite IH]. Qed.

Lemma lower_append (s1 s2 : string) : lower (s1 ++ s2) = (lower s1 ++ lower s2)%string.
Proof. induction s1 as [| c s1 IH]; cbn; [reflexivity | now rewrite IH]. Qed.

Lemma substring_0_0 (s : string) : substring 0 0 s = "".
Proof. now destruct s. Qed.

Lemma substring_append_l (s1 s2 : string) :
  substring 0 (String.length s1) (s1 ++ s2)%string = s1.
Proof.
  induction s1 as [| c s1 IH]; cbn.
  - apply substring_0_0.
  - now rewrite IH.
Qed.

Lemma substring_all (s : string) : substring 0 (String.length s) s = s.
Proof. induction s as [| c s IH]; cbn; [reflexivity | now rewrite IH]. Qed.

Lemma substring_append_r (s1 s2 : string) :
  substring (String.length s1) (String.length s2) (s1 ++ s2)%string = s2.
Proof.
  induction s1 as [| c s1 IH]; cbn.
  - apply substring_all.
  - exact IH.
Qed.

Lemma substring_split (s : string) : forall n,
  n <= String.length s ->
  s = (substring 0 n s ++ substring n (String.length s - n) s)%string.
Proof.
  induction s as [| c s IH]; intros [| n] Hn; cbn in *.
  - reflexivity.
  - lia.
  - now rewrite substring_all.
  - rewrite <- IH by lia. reflexivity.
Qed.

Lemma lower_substring (s : string) : forall n m,
  lower (substring n m s) = substring n m (lower s).
Proof.
  induction s as [| c s IH]; intros [| n] [| m]; cbn; try reflexivity.
  - now rewrite IH.
  - apply IH.
  - apply IH.
Qed.

Lemma endswith_append (s1 s2 : string) : endswith (s1 ++ s2)%string s2 = true.
Proof.
  unfold endswith. rewrite length_append.
  replace (String.length s1 + String.length s2 - String.length s2)
    with (String.length s1) by lia.
  rewrite substring_append_r, String.eqb_refl.
  apply andb_true_iff. split; [apply Nat.leb_le; lia | reflexivity].
Qed.

Lemma endswith_inv (s suffix : string) :
  endswith s suffix = true -> exists stem, s = (stem ++ suffix)%string.
Proof.
  unfold endswith. intros H. apply andb_true_iff in H. destruct H as [Hle Heq].
  apply Nat.leb_le in Hle. apply String.eqb_eq in Heq.
  set (n := String.length s - String.length suffix) in *.
  exists (substring 0 n s).
  pose proof (substring_split s n) as Hs.
  replace (String.length s - n) with (String.length suffix) in Hs
    by (unfold n; lia).
  rewrite Heq in Hs. apply Hs. unfold n. lia.
Qed.

(** A name passes the filter of the loader exactly when it ends in a suffix
    that is [.jpg], [.jpeg] or [.png] up to letter case. *)
Lemma image_suffix_iff (filename : string) (suffixes : list string) :
  endswith_any (lower filename) suffixes = true
  <-> exists stem ext, filename = (stem ++ ext)%string /\ In (lower ext) suffixes.
Proof.
  unfold endswith_any. rewrite existsb_exists. split.
  - intros (suffix & Hin & He).
    pose proof He as He'. unfold endswith in He'.
    apply andb_true_iff in He'. destruct He' as [Hle Heq].
    apply Nat.leb_le in Hle. apply String.eqb_eq in Heq.
    rewrite length_lower in Hle, Heq.
    set (n := String.length filename - String.length suffix) in *.
    exists (substring 0 n filename),
           (substring n (String.length suffix) filename).
    split.
    + replace (String.length suffix) with (String.length filename - n)
        by (unfold n; lia).
      apply substring_split. unfold n. lia.
    + rewrite lower_substring, Heq. exact Hin.
  - intros (stem & ext & -> & Hin).
    exists (lower ext). split; [exact Hin |].
    rewrite lower_append. apply endswith_append.
Qed.

Lemma occurs_append c (s1 s2 : string) :
  occurs c (s1 ++ s2)%string = occurs c s1 || occurs c s2.
Proof.
  induction s1 as [| a s1 IH]; cbn; [reflexivity |].
  now rewrite IH, orb_assoc.
Qed.

Lemma rfind_from_append c (s1 : string) : forall s2 i last,
  rfind_from c (s1 ++ s2)%string i last
  = rfind_from c s2 (i + Z.of_nat (String.length s1)) (rfind_from c s1 i last).
Proof.
  induction s1 as [| a s1 IH]; intros s2 i last.
  - cbn. now rewrite Z.add_0_r.
  - cbn [append rfind_from String.length]. rewrite IH. f_equal. lia.
Qed.

Lemma rfind_from_absent c (s : string) : forall i last,
  occurs c s = false -> rfind_from c s i last = last.
Proof.
  induction s as [| a s IH]; intros i last H; cbn in *; [reflexivity |].
  apply orb_false_iff in H. destruct H as [Ha Hs].
  rewrite Ha. now apply IH.
Qed.

Lemma substring_one (p : string) : forall k c,
  String.get k p = Some c -> substring k 1 p = String c "".
Proof.
  induction p as [| a p IH]; intros [| k] c H; cbn in *; try discriminate.
  - injection H as ->. now rewrite substring_0_0.
  - now apply IH.
Qed.

Lemma has_non_dot_found (p : string) (dot : Z) : forall n i k c,
  i <= k -> (Z.of_nat k < dot)%Z ->
  String.get k p = Some c -> c <> "."%char -> k - i < n ->
  has_non_dot p n (Z.of_nat i) dot = true.
Proof.
  induction n as [| n IH]; intros i k c Hik Hk Hget Hc Hfuel; [lia |].
  cbn [has_non_dot].
  assert (Hlt : (Z.of_nat i <? dot)%Z = true) by (apply Z.ltb_lt; lia).
  rewrite Hlt.
  assert (Hslice : slice p (Z.of_nat i) (Z.of_nat i + 1) = substring i 1 p).
  { unfold slice. f_equal; lia. }
  rewrite Hslice.
  destruct (String.eqb (substring i 1 p) ".") eqn:He; [| reflexivity].
  cbn [negb].
  assert (Hne : i <> k).
  { intros ->. rewrite (substring_one p k c Hget) in He.
    apply String.eqb_eq in He. injection He as He. contradiction. }
  replace (Z.of_nat i + 1)%Z with (Z.of_nat (S i)) by lia.
  apply (IH (S i) k c); auto; lia.
Qed.

Lemma get_append_l (s1 s2 : string) : forall k c,
  String.get k s1 = Some c -> String.get k (s1 ++ s2)%string = Some c.
Proof.
  induction s1 as [| a s1 IH]; intros [| k] c H; cbn in *; try discriminate.
  - exact H.
  - now apply IH.
Qed.

Lemma get_length (s : string) : forall k c,
  String.get k s = Some c -> k < String.length s.
Proof.
  induction s as [| a s IH]; intros [| k] c H; cbn in *; try discriminate.
  - lia.
  - apply IH in H. lia.
Qed.

(** [splitext] cuts a name at its last dot when a character other than the
    dot stands before it. *)
Lemma splitext_stem (stem e : string) :
  occurs "/" stem = false -> occurs "/" e = false -> occurs "." e = false ->
  (exists k c, String.get k stem = Some c /\ c <> "."%char) ->
  splitext (stem ++ String "." e) = (stem, String "." e).
Proof.
  intros Hsep1 Hsep2 Hdot (k & c & Hget & Hc).
  unfold splitext.
  assert (Hs : rfind "/" (stem ++ String "." e) = (-1)%Z).
  { unfold rfind. apply rfind_from_absent.
    rewrite occurs_append. cbn. now rewrite Hsep1, Hsep2. }
  assert (Hd : rfind "." (stem ++ String "." e) = Z.of_nat (String.length stem)).
  { unfold rfind. rewrite rfind_from_append. cbn [rfind_from].
    rewrite (rfind_from_absent "." e _ _ Hdot). reflexivity. }
  rewrite Hs, Hd.
  assert (Hlt : (-1 <? Z.of_nat (String.length stem))%Z = true)
    by (apply Z.ltb_lt; lia).
  rewrite Hlt. cbn [andb].
  pose proof (get_length stem k c Hget) as Hk.
  rewrite (has_non_dot_found _ _ _ 0 k c); try lia.
  - unfold slice. f_equal.
    + replace (Z.to_nat 0) with 0 by lia.
      replace (Z.to_nat (Z.of_nat (String.length stem) - 0))
        with (String.length stem) by lia.
      apply substring_append_l.
    + rewrite length_append.
      replace (Z.to_nat (Z.of_nat (String.length stem)))
        with (String.length stem) by lia.
      replace (Z.to_nat (Z.of_nat (String.length stem + String.length (String "." e))
                         - Z.of_nat (String.length stem)))
        with (String.length (String "." e)) by lia.
      apply substring_append_r.
  - now apply get_append_l.
  - exact Hc.
  - rewrite length_append. lia.
Qed.

Lemma lower_ascii_dot (c : ascii) : lower_ascii c = "."%char -> c = "."%char.
Proof.
  unfold lower_ascii.
  destruct ((65 <=? nat_of_ascii c)%nat && (nat_of_ascii c <=? 90)%nat) eqn:H;
    [| auto].
  apply andb_true_iff in H. destruct H as [H1 H2].
  apply Nat.leb_le in H1. apply Nat.leb_le in H2.
  intros He. apply (f_equal nat_of_ascii) in He.
  rewrite nat_ascii_embedding in He by lia. cbn in He. lia.
Qed.

Lemma lower_ascii_differs (c x d : ascii) :
  lower_ascii c = d -> lower_ascii x <> d -> Ascii.eqb c x = false.
Proof.
  intros Hc Hx. apply Ascii.eqb_neq. intros ->. contradiction.
Qed.

(** A suffix that is [.jpg], [.jpeg] or [.png] up to letter case is a dot
    followed by letters. *)
Lemma image_suffix_shape (ext : string) :
  In (lower ext) [".jpg"; ".jpeg"; ".png"] ->
  exists e, ext = String "." e /\ occurs "." e = false /\ occurs "/" e = false.
Proof.
  intros [H | [H | [H | []]]]; symmetry in H;
    repeat (destruct ext as [| ? ext]; cbn in H; try discriminate H);
    injection H as H0 H1;
    apply lower_ascii_dot in H0; subst;
    eexists; (split; [reflexivity |]);
    cbn [occurs];
    repeat match goal with
           | H : lower_ascii ?c = _ |- context [Ascii.eqb ?c ?x] =>
               rewrite (lower_ascii_differs c x _ H) by discriminate
           end;
    split; reflexivity.
Qed.

(** For a name that passes the filter, the root [splitext] gives is the name
    without the suffix that made it pass, as soon as a character other than
    the dot stands before that suffix. *)
Lemma image_name_root (stem ext : string) :
  In (lower ext) [".jpg"; ".jpeg"; ".png"] ->
  occurs "/" stem = false ->
  (exists k c, String.get k stem = Some c /\ c <> "."%char) ->
  fst (splitext (stem ++ ext)) = stem.
Proof.
  intros Hext Hsep Hstem.
  destruct (image_suffix_shape ext Hext) as (e & -> & Hdot & Hsep').
  now rewrite splitext_stem.
Qed.

Example splitext_hidden_file : splitext ".jpg" = (".jpg", "").
Proof. reflexivity. Qed.

(** ** Facts: the gallery loader *)

(** A file adds to the two lists what the specification says it contributes,
    whatever happens while it is decoded. *)
Lemma load_face_run filename s :
  load_face filename s
  = (inr tt,
     {| known_face_encodings :=
          known_face_encodings s ++ map fst (entry_of filename);
        known_face_names :=
          known_face_names s ++ map snd (entry_of filename) |}).
Proof.
  unfold load_face, entry_of.
  destruct (endswith_any (lower filename) _).
  - unfold Eff.try_except, Eff.bind.
    destruct (load_image_file _) as [e | img]; cbn [Eff.lift].
    + cbn. rewrite !app_nil_r. now destruct s.
    + unfold Eff.ret at 1.
      destruct (face_encodings img) as [e | [| enc rest]]; cbn [Eff.lift].
      * cbn. rewrite !app_nil_r. now destruct s.
      * cbn. rewrite !app_nil_r. now destruct s.
      * reflexivity.
  - cbn. rewrite !app_nil_r. now destruct s.
Qed.

Lemma for_each_load_face filenames : forall s,
  for_each load_face filenames s
  = (inr tt,
     {| known_face_encodings :=
          known_face_encodings s ++ map fst (gallery_of filenames);
        known_face_names :=
          known_face_names s ++ map snd (gallery_of filenames) |}).
Proof.
  induction filenames as [| f l IH]; intros s.
  - cbn. rewrite !app_nil_r. now destruct s.
  - cbn [for_each]. unfold Eff.bind. rewrite load_face_run, IH.
    cbn [known_face_encodings known_face_names gallery_of flat_map].
    now rewrite !map_app, !app_assoc.
Qed.

Lemma load_known_faces_listed filenames :
  path_exists CONFIG.FACE_FOLDER = true ->
  listdir CONFIG.FACE_FOLDER = inr filenames ->
  load_known_faces
  = inr (map fst (gallery_of filenames), map snd (gallery_of filenames)).
Proof.
  intros He Hl. unfold load_known_faces. rewrite He. cbn [negb].
  unfold Eff.bind. rewrite Hl. cbn [Eff.lift]. unfold Eff.ret at 1.
  now rewrite for_each_load_face.
Qed.

(** The two lists grow together. *)
Lemma load_known_faces_lockstep encs names :
  load_known_faces = inr (encs, names) ->
  List.length encs = List.length names.
Proof.
  unfold load_known_faces.
  destruct (path_exists CONFIG.FACE_FOLDER); cbn [negb].
  - unfold Eff.bind.
    destruct (listdir CONFIG.FACE_FOLDER) as [e | filenames]; cbn [Eff.lift].
    + discriminate.
    + unfold Eff.ret at 1. rewrite for_each_load_face.
      intros H. injection H as <- <-. cbn. now rewrite !length_map.
  - cbn. intros H. now injection H as <- <-.
Qed.

(** ** The claims *)

(** C1.  For every query embedding and every gallery, when at least one
    gallery entry is within the tolerance, the Match Engine returns the first
    such entry in gallery order: every entry within the tolerance stands at
    its position or later, whatever its distance.  In particular, when A is
    the first entry within the tolerance and B, further down the gallery, is
    within the tolerance at a strictly smaller distance, A's name is
    returned. *)
Theorem match_face_first_in_order encs names q w :
  (List.length names = List.length encs ->
   (exists a, In a encs /\ within_tolerance a q = true) ->
   exists i a name,
     nth_error encs i = Some a /\ nth_error names i = Some name
     /\ within_tolerance a q = true
     /\ (forall j b, nth_error encs j = Some b ->
                     within_tolerance b q = true -> i <= j)
     /\ fst (match_face encs names q w)
        = inr (Some (name, confidence_of a q)))
  /\ (forall iA iB A B nameA,
        nth_error encs iA = Some A -> nth_error encs iB = Some B ->
        iA < iB ->
        nth_error names iA = Some nameA ->
        within_tolerance A q = true -> within_tolerance B q = true ->
        (forall j b, j < iA -> nth_error encs j = Some b ->
                     within_tolerance b q = false) ->
        (face_dist B q <? face_dist A q)%float = true ->
        fst (match_face encs names q w)
        = inr (Some (nameA, confidence_of A q))).
Proof.
  split.
  - intros Hlen Hex.
    destruct (first_satisfying (fun a => within_tolerance a q) encs Hex)
      as (i & a & Hi & Ha & Hmin).
    assert (Hlt : i < List.length names).
    { rewrite Hlen. apply nth_error_Some. congruence. }
    destruct (nth_error names i) as [name |] eqn:Hname;
      [| apply nth_error_Some in Hlt; congruence].
    exists i, a, name. repeat split; auto.
    rewrite match_face_run. cbn [fst].
    now apply match_result_first with (i := i).
  - intros iA iB A B nameA HA HB Hlt Hname HwA HwB Hfirst Hcloser.
    rewrite match_face_run. cbn [fst].
    apply match_result_first with (i := iA); auto.
    intros j b Hj Hb.
    destruct (Nat.lt_ge_cases j iA) as [Hjlt | Hge]; [| exact Hge].
    rewrite (Hfirst j b Hjlt Hj) in Hb. discriminate.
Qed.

(** C2 (as amended).  What one invocation of the notifier does, from any
    state of the world.  (1) A first attempt answered by a 200 whose body
    parses: one outbound call, the parsed body is returned.  (2) A first
    attempt answered by any other status: one outbound call, no retry, the
    partial-success dict with that status is returned.  (3) Every attempt
    ending in a request error: as many outbound calls as [retries], a sleep
    of [RETRY_DELAY] between consecutive ones, [None] is returned.  (4) [None]
    is returned only if every attempt ended in a request error, or the first
    attempt that did not was answered by a 200 whose body is the JSON
    [null]. *)
Theorem send_to_nodejs_outcomes data retries w :
  (forall r v,
      (0 < retries)%Z ->
      post_outcome (posts w) = inr r -> status_code r = 200%Z ->
      json r = inr v ->
      send_to_nodejs data retries w =
      (inr v,
       {| posts := S (posts w);
          trace := trace w ++ [EvNotify data;
                               EvPost CONFIG.NODE_JS_URL data 5] |}))
  /\ (forall r,
         (0 < retries)%Z ->
         post_outcome (posts w) = inr r -> status_code r <> 200%Z ->
         send_to_nodejs data retries w =
         (inr (partial_success (status_code r)),
          {| posts := S (posts w);
             trace := trace w ++ [EvNotify data;
                                  EvPost CONFIG.NODE_JS_URL data 5] |}))
  /\ ((forall k, k < Z.to_nat retries -> request_error (posts w + k)) ->
      send_to_nodejs data retries w =
      (inr PyNone,
       {| posts := posts w + Z.to_nat retries;
          trace := trace w ++ EvNotify data
                     :: failed_attempts data (Z.to_nat retries) |}))
  /\ (forall w',
         send_to_nodejs data retries w = (inr PyNone, w') ->
         (forall k, k < Z.to_nat retries -> request_error (posts w + k))
         \/ exists k r,
             k < Z.to_nat retries
             /\ (forall j, j < k -> request_error (posts w + j))
             /\ post_outcome (posts w + k) = inr r
             /\ status_code r = 200%Z /\ json r = inr PyNone).
Proof.
  split; [| split; [| split]].
  - intros r v. apply send_to_nodejs_200.
  - intros r. apply send_to_nodejs_other_status.
  - apply send_to_nodejs_all_fail.
  - intros w'. apply send_to_nodejs_none.
Qed.

(** C3.  For a request whose first matching face yields the confidence [c]:
    when [c >= 65.0] the handler invokes the notifier exactly once; when
    [c < 65.0] it does not invoke it, and the message of the response says
    that the confidence was too low. *)
Theorem confidence_threshold_gate encs names req pre q rest name c w :
  detected req (pre ++ q :: rest) ->
  (forall p, In p pre -> match_result encs names p = inr None) ->
  match_result encs names q = inr (Some (name, c)) ->
  ((CONFIG.MIN_CONFIDENCE <=? c)%float = true ->
   notifier_calls (trace (snd (compare_faces encs names req w)))
   = notifier_calls (trace w) + 1)
  /\ ((c <? CONFIG.MIN_CONFIDENCE)%float = true ->
      notifier_calls (trace (snd (compare_faces encs names req w)))
      = notifier_calls (trace w)
      /\ fst (compare_faces encs names req w)
         = inr {| status := 200;
                  body := PyDict
                    [("status", PyStr "success");
                     ("message",
                      PyStr ("Match found but confidence too low ("
                             ++ format_confidence c ++ ")"));
                     ("name", PyStr name);
                     ("confidence", PyStr (format_confidence c));
                     ("node_status",
                      PyStr "Data not sent due to low confidence")] |}).
Proof.
  intros Hd Hpre Hq.
  rewrite (compare_faces_first_match encs names req pre q rest name c w Hd Hpre Hq).
  assert (Hw : notifier_calls (trace (after_compare (pre ++ [q]) w))
               = notifier_calls (trace w)).
  { unfold after_compare. cbn [trace].
    rewrite notifier_calls_app, notifier_calls_compare_events. lia. }
  destruct (respond_match_trace name c (after_compare (pre ++ [q]) w))
    as (t & Ht & _ & _ & Hhigh & Hlow).
  split.
  - intros Hc. specialize (Hhigh Hc).
    destruct (respond_match name c _) as [[e | r] w']; cbn [snd] in *;
      rewrite Ht, notifier_calls_app; lia.
  - intros Hc. apply ltb_not_leb in Hc.
    rewrite (respond_match_low name c _ Hc). cbn [snd fst]. split.
    + exact Hw.
    + reflexivity.
Qed.

(** C4.  For a matched gallery entry at distance [d] of the query, the
    confidence the response reports is [(1 - d) * 100] printed with two
    decimals and a [%]; nothing clamps it, so a distance outside [0, 1]
    shows as a confidence outside [0, 100]. *)
Theorem confidence_reported_unclamped
        encs names req pre q rest i a name w r w' :
  detected req (pre ++ q :: rest) ->
  (forall p, In p pre -> match_result encs names p = inr None) ->
  nth_error encs i = Some a -> within_tolerance a q = true ->
  (forall j b, nth_error encs j = Some b -> within_tolerance b q = true ->
               i <= j) ->
  nth_error names i = Some name ->
  compare_faces encs names req w = (inr r, w') ->
  status r = 200%Z ->
  field "name" (body r) = Some (PyStr name)
  /\ field "confidence" (body r)
     = Some (PyStr (format_2f ((1 - face_dist a q) * 100)%float ++ "%")).
Proof.
  intros Hd Hpre Hi Ha Hmin Hname Hrun Hstatus.
  pose proof (match_result_first encs names q i a name Hi Ha Hmin Hname) as Hq.
  rewrite (compare_faces_first_match encs names req pre q rest name
             (confidence_of a q) w Hd Hpre Hq) in Hrun.
  destruct (respond_match name (confidence_of a q) _) as [[e | r0] w1] eqn:Hr.
  - injection Hrun as <- _. now apply error_response_status in Hstatus.
  - injection Hrun as <- _.
    destruct (respond_match_fields _ _ _ _ _ Hr) as (_ & _ & Hn & Hc).
    split; [exact Hn | exact Hc].
Qed.

(** C5.  No request makes the handler invoke the notifier more than once.
    When several faces are detected, they are compared with the gallery in
    detection order up to the first one that matches, and no further; the
    response is the success response for that face. *)
Theorem first_matching_face_decides encs names :
  (forall req w,
      notifier_calls (trace (snd (compare_faces encs names req w)))
      <= notifier_calls (trace w) + 1)
  /\ (forall req pre q rest name c w,
        detected req (pre ++ q :: rest) ->
        (forall p, In p pre -> match_result encs names p = inr None) ->
        match_result encs names q = inr (Some (name, c)) ->
        compared (trace (snd (compare_faces encs names req w)))
        = compared (trace w) ++ pre ++ [q]
        /\ (requests_contract ->
            exists r w',
              compare_faces encs names req w = (inr r, w')
              /\ status r = 200%Z
              /\ field "status" (body r) = Some (PyStr "success")
              /\ field "name" (body r) = Some (PyStr name)
              /\ field "confidence" (body r)
                 = Some (PyStr (format_confidence c)))).
Proof.
  split.
  - intros req w. apply compare_faces_notifier_calls.
  - intros req pre q rest name c w Hd Hpre Hq.
    rewrite (compare_faces_first_match encs names req pre q rest name c w
               Hd Hpre Hq).
    split.
    + destruct (respond_match_trace name c (after_compare (pre ++ [q]) w))
        as (t & Ht & _ & Hcmp & _).
      assert (Hgoal : compared (trace (snd (respond_match name c
                                   (after_compare (pre ++ [q]) w))))
                      = compared (trace w) ++ pre ++ [q]).
      { rewrite Ht, compared_app, Hcmp, app_nil_r.
        unfold after_compare. cbn [trace].
        now rewrite compared_app, compared_compare_events. }
      destruct (respond_match name c _) as [[e | r] w']; exact Hgoal.
    + intros Hc.
      destruct (CONFIG.MIN_CONFIDENCE <=? c)%float eqn:Hconf.
      * destruct (send_to_nodejs_returns (result_data name c)
                    CONFIG.MAX_RETRIES (after_compare (pre ++ [q]) w) Hc)
          as (v & w1 & Hv).
        assert (Hr : respond_match name c (after_compare (pre ++ [q]) w)
                     = (inr (jsonify (notified_body name c v)), w1)).
        { rewrite (respond_match_high name c _ Hconf). now rewrite Hv. }
        rewrite Hr.
        exists (jsonify (notified_body name c v)), w1.
        split; [reflexivity |].
        exact (respond_match_fields _ _ _ _ _ Hr).
      * assert (Hr := respond_match_low name c
                        (after_compare (pre ++ [q]) w) Hconf).
        rewrite Hr.
        exists (jsonify (low_confidence_body name c)),
               (after_compare (pre ++ [q]) w).
        split; [reflexivity |].
        exact (respond_match_fields _ _ _ _ _ Hr).
Qed.

(** C6.  For a request with a match whose confidence reaches the threshold,
    the notifier is invoked and its outcome stays inside a 200 response:
    when every attempt ends in a network-level error the body carries the
    [node_status] "Data sent but no response from Node.js"; when the first
    attempt is answered by a status other than 200 the body carries the
    partial-success dict as [node_response]; whatever value the notifier
    returns, the response is a 200 that carries it; and the notifier does
    return a value when requests raises nothing but its own exceptions. *)
Theorem notification_outcome_stays_200 encs names req pre q rest name c w :
  detected req (pre ++ q :: rest) ->
  (forall p, In p pre -> match_result encs names p = inr None) ->
  match_result encs names q = inr (Some (name, c)) ->
  (CONFIG.MIN_CONFIDENCE <=? c)%float = true ->
  ((forall k, k < 3 -> network_error (posts w + k)) ->
   fst (compare_faces encs names req w)
   = inr {| status := 200;
            body := PyDict
              [("status", PyStr "success");
               ("message", PyStr ("Match Found! Name: " ++ name));
               ("name", PyStr name);
               ("confidence", PyStr (format_confidence c));
               ("node_status",
                PyStr "Data sent but no response from Node.js")] |})
  /\ (forall resp,
        post_outcome (posts w) = inr resp -> status_code resp <> 200%Z ->
        fst (compare_faces encs names req w)
        = inr {| status := 200;
                 body := PyDict
                   [("status", PyStr "success");
                    ("message", PyStr ("Match Found! Name: " ++ name));
                    ("name", PyStr name);
                    ("confidence", PyStr (format_confidence c));
                    ("node_response",
                     partial_success (status_code resp))] |})
  /\ (forall v w1,
        send_to_nodejs (result_data name c) CONFIG.MAX_RETRIES
                       (after_compare (pre ++ [q]) w) = (inr v, w1) ->
        compare_faces encs names req w
        = (inr {| status := 200; body := PyDict (notified_body name c v) |},
           w1))
  /\ (requests_contract ->
      exists r w', compare_faces encs names req w = (inr r, w')
                   /\ status r = 200%Z).
Proof.
  intros Hd Hpre Hq Hconf.
  rewrite (compare_faces_first_match encs names req pre q rest name c w
             Hd Hpre Hq).
  rewrite (respond_match_high name c _ Hconf).
  set (w0 := after_compare (pre ++ [q]) w).
  split; [| split; [| split]].
  - intros Hall.
    rewrite (send_to_nodejs_all_fail (result_data name c) CONFIG.MAX_RETRIES w0);
      [reflexivity |].
    intros k Hk. apply network_error_request_error.
    apply (Hall k). exact Hk.
  - intros resp Ho Hs.
    rewrite (send_to_nodejs_other_status (result_data name c)
               CONFIG.MAX_RETRIES w0 resp);
      [reflexivity | reflexivity | exact Ho | exact Hs].
  - intros v w1 Hv. now rewrite Hv.
  - intros Hc.
    destruct (send_to_nodejs_returns (result_data name c) CONFIG.MAX_RETRIES
                w0 Hc) as (v & w1 & Hv).
    rewrite Hv. eexists. eexists. split; reflexivity.
Qed.

(** C7.  The three validation failures are answered with a 400 whose status
    field is "error": "No image uploaded" without an [image] part, "Face
    recognition error: Empty image data" for an empty upload, "No face
    detected in uploaded image" when no embedding is extracted. *)
Theorem validation_failures encs names req w :
  (files_get "image" (files req) = None ->
   compare_faces encs names req w
   = (inr {| status := 400;
             body := PyDict [("status", PyStr "error");
                             ("message", PyStr "No image uploaded")] |}, w))
  /\ (forall image_file,
        files_get "image" (files req) = Some image_file ->
        stream image_file = [] ->
        compare_faces encs names req w
        = (inr {| status := 400;
                  body := PyDict
                    [("status", PyStr "error");
                     ("message",
                      PyStr "Face recognition error: Empty image data")] |},
           w))
  /\ (forall image_file img,
        files_get "image" (files req) = Some image_file ->
        stream image_file <> [] ->
        load_image_file (FromBytes (stream image_file)) = inr img ->
        face_encodings img = inr [] ->
        compare_faces encs names req w
        = (inr {| status := 400;
                  body := PyDict
                    [("status", PyStr "error");
                     ("message",
                      PyStr "No face detected in uploaded image")] |},
           w)).
Proof.
  unfold compare_faces. split; [| split].
  - intros H. now rewrite H.
  - intros image_file Hf Hs. now rewrite Hf, Hs.
  - intros image_file img Hf Hs Hl He. rewrite Hf.
    unfold Eff.try_except, Eff.bind.
    destruct (stream image_file) as [| b data] eqn:Hdata; [congruence |].
    unfold Eff.ret at 1. rewrite Hl. cbn [Eff.lift]. unfold Eff.ret at 1.
    now rewrite He.
Qed.

(** C8.  When faces are detected and none of them is within the tolerance of
    any gallery entry, the handler answers 200 with the "not found" body; so
    it does with an empty gallery; and that response is not the 400 of the
    "no face detected" error. *)
Theorem no_match_is_not_found encs names req l w :
  detected req l -> l <> [] ->
  ((forall p a, In p l -> In a encs -> within_tolerance a p = false) ->
   compare_faces encs names req w
   = (inr {| status := 200;
             body := PyDict [("status", PyStr "not_found");
                             ("message", PyStr "No Match Found");
                             ("name", PyNone);
                             ("confidence", PyStr "0%")] |},
      after_compare l w))
  /\ compare_faces [] names req w
     = (inr {| status := 200;
               body := PyDict [("status", PyStr "not_found");
                               ("message", PyStr "No Match Found");
                               ("name", PyNone);
                               ("confidence", PyStr "0%")] |},
        after_compare l w)
  /\ jsonify not_found_body
     <> jsonify_with (error_body "No face detected in uploaded image") 400.
Proof.
  intros Hd Hne. split; [| split].
  - intros Hnone.
    rewrite (compare_faces_detected encs names req l w Hd Hne).
    rewrite for_face_encodings_no_match; [reflexivity |].
    intros p Hp. apply match_result_none. intros a Ha. now apply Hnone.
  - rewrite (compare_faces_detected [] names req l w Hd Hne).
    rewrite for_face_encodings_no_match; [reflexivity |].
    intros p Hp. apply match_result_none. intros a [].
  - discriminate.
Qed.

(** C9.  Without the configured folder the loader returns an empty gallery.
    With it, the gallery holds, in listing order, one entry for every listed
    name that ends in [.jpg], [.jpeg] or [.png] in any letter case and in
    whose image a face is found: the first embedding, under the root that
    [os.path.splitext] gives the file name, which is the name without that
    suffix as soon as a character other than the dot stands before it.  A
    name without such a suffix, an image that does not decode, an extraction
    that raises and an image without a face contribute nothing and do not
    stop the loader; what the gallery already holds is never consulted, so
    nothing is deduplicated. *)
Theorem load_known_faces_gallery :
  (path_exists CONFIG.FACE_FOLDER = false -> load_known_faces = inr ([], []))
  /\ (forall filenames,
        path_exists CONFIG.FACE_FOLDER = true ->
        listdir CONFIG.FACE_FOLDER = inr filenames ->
        load_known_faces
        = inr (map fst (gallery_of filenames), map snd (gallery_of filenames)))
  /\ (forall filename,
        endswith_any (lower filename) [".jpg"; ".jpeg"; ".png"] = false ->
        entry_of filename = [])
  /\ (forall filename e,
        load_image_file (FromPath (os_path_join CONFIG.FACE_FOLDER filename))
        = inl e ->
        entry_of filename = [])
  /\ (forall filename img,
        load_image_file (FromPath (os_path_join CONFIG.FACE_FOLDER filename))
        = inr img ->
        (face_encodings img = inr [] \/ exists e, face_encodings img = inl e) ->
        entry_of filename = [])
  /\ (forall filename img enc others,
        endswith_any (lower filename) [".jpg"; ".jpeg"; ".png"] = true ->
        load_image_file (FromPath (os_path_join CONFIG.FACE_FOLDER filename))
        = inr img ->
        face_encodings img = inr (enc :: others) ->
        entry_of filename = [(enc, fst (splitext filename))])
  /\ (forall before filename after,
        gallery_of (before ++ filename :: after)
        = gallery_of before ++ entry_of filename ++ gallery_of after)
  /\ (forall filename,
        endswith_any (lower filename) [".jpg"; ".jpeg"; ".png"] = true
        <-> exists stem ext,
            filename = (stem ++ ext)%string
            /\ In (lower ext) [".jpg"; ".jpeg"; ".png"])
  /\ (forall stem ext,
        In (lower ext) [".jpg"; ".jpeg"; ".png"] ->
        occurs "/" stem = false ->
        (exists k c, String.get k stem = Some c /\ c <> "."%char) ->
        fst (splitext (stem ++ ext)) = stem).
Proof.
  split; [| split; [| split; [| split; [| split; [| split; [| split;
    [| split]]]]]]].
  - intros H. unfold load_known_faces. now rewrite H.
  - intros filenames. apply load_known_faces_listed.
  - intros filename H. unfold entry_of. now rewrite H.
  - intros filename e H. unfold entry_of. rewrite H.
    now destruct (endswith_any _ _).
  - intros filename img H [He | [e He]]; unfold entry_of; rewrite H, He;
      now destruct (endswith_any _ _).
  - intros filename img enc others Hs Hl He. unfold entry_of.
    now rewrite Hs, Hl, He.
  - intros before filename after. unfold gallery_of.
    now rewrite flat_map_app.
  - intros filename. apply image_suffix_iff.
  - apply image_name_root.
Qed.

(** C10.  The loader appends to its two lists in lockstep: the lists it
    returns have the same length.  So the flags computed for a query, one
    per gallery embedding, put their first [True] at an index that is valid
    in the list of names, and the Match Engine never raises on a gallery
    that comes from the loader. *)
Theorem gallery_lookup_in_bounds encs names :
  load_known_faces = inr (encs, names) ->
  List.length encs = List.length names
  /\ (forall q,
        List.length (face_recognition_compare_faces encs q CONFIG.TOLERANCE)
        = List.length encs)
  /\ (forall q i,
        index_true (face_recognition_compare_faces encs q CONFIG.TOLERANCE)
        = Some i ->
        i < List.length names /\ exists name, nth_error names i = Some name)
  /\ (forall q w, exists r, fst (match_face encs names q w) = inr r).
Proof.
  intros Hload.
  pose proof (load_known_faces_lockstep encs names Hload) as Hlen.
  assert (Hflags : forall q,
             List.length (face_recognition_compare_faces encs q CONFIG.TOLERANCE)
             = List.length encs).
  { intros q. unfold face_recognition_compare_faces,
      face_recognition_face_distance. now rewrite !length_map. }
  assert (Hidx : forall q i,
             index_true (face_recognition_compare_faces encs q CONFIG.TOLERANCE)
             = Some i ->
             i < List.length names /\ exists name, nth_error names i = Some name).
  { intros q i Hi. apply index_true_bound in Hi. rewrite Hflags, Hlen in Hi.
    split; [exact Hi |].
    destruct (nth_error names i) as [name |] eqn:Hn; [now exists name |].
    apply nth_error_None in Hn. lia. }
  repeat split; auto.
  - apply (Hidx q i H).
  - apply (Hidx q i H).
  - intros q w. rewrite match_face_run. cbn [fst].
    unfold match_result, match_face, Eff.bind, emit, Eff.modify.
    cbn [fst posts trace world0].
    destruct (contains_true _) eqn:Hc; [| now eexists].
    destruct (contains_true_index _ Hc) as [i Hi]. rewrite Hi.
    destruct (Hidx q i Hi) as [Hlt [name Hname]].
    unfold Eff.ret. rewrite Hname.
    destruct (nth_error (face_recognition_face_distance encs q) i) as [d |] eqn:Hd.
    + now eexists.
    + apply nth_error_None in Hd.
      unfold face_recognition_face_distance in Hd. rewrite length_map in Hd. lia.
Qed.

(** ** Further properties: the notifier *)

Lemma outbound_calls_app t1 t2 :
  outbound_calls (t1 ++ t2) = outbound_calls t1 + outbound_calls t2.
Proof. unfold outbound_calls. now rewrite filter_app, length_app. Qed.

Lemma sleeps_app t1 t2 : sleeps (t1 ++ t2) = sleeps t1 + sleeps t2.
Proof. unfold sleeps. now rewrite filter_app, length_app. Qed.

(** An attempt makes one POST, and sleeps after it only when it goes on to a
    further attempt. *)
Lemma attempt_once_shape data retries attempt w :
  exists r,
    attempt_once data retries attempt w =
    (r, {| posts := S (posts w);
           trace := trace w ++ EvPost CONFIG.NODE_JS_URL data 5
                      :: match r with
                         | inr None =>
                             if (attempt <? retries - 1)%Z
                             then [EvSleep CONFIG.RETRY_DELAY] else []
                         | _ => []
                         end |}).
Proof.
  unfold attempt_once, Eff.try_except, Eff.bind, requests_post.
  destruct (post_outcome (posts w)) as [e | r].
  - destruct e as [m | m | m].
    + exists (inl (FaceRecognitionError m)). reflexivity.
    + exists (inr None). cbn.
      destruct (attempt <? retries - 1)%Z; cbn; [| reflexivity].
      now rewrite <- app_assoc.
    + exists (inl (OtherException m)). reflexivity.
  - destruct (status_code r =? 200)%Z; cbn.
    + destruct (json r) as [e | v]; cbn.
      * destruct e as [m | m | m].
        -- exists (inl (FaceRecognitionError m)). reflexivity.
        -- exists (inr None). cbn.
           destruct (attempt <? retries - 1)%Z; cbn; [| reflexivity].
           now rewrite <- app_assoc.
        -- exists (inl (OtherException m)). reflexivity.
      * exists (inr (Some v)). reflexivity.
    + exists (inr (Some (partial_success (status_code r)))). reflexivity.
Qed.

Lemma for_attempts_shape data retries n : forall attempt w,
  (attempt + Z.of_nat n = retries)%Z ->
  exists t,
    snd (for_attempts data retries n attempt w)
    = {| posts := posts w + outbound_calls t; trace := trace w ++ t |}
    /\ Forall (notifier_event data) t
    /\ outbound_calls t <= n
    /\ sleeps t <= n - 1
    /\ sleeps t <= outbound_calls t
    /\ (n = 0 -> t = [])
    /\ (0 < n -> exists t', t = t' ++ [EvPost CONFIG.NODE_JS_URL data 5]).
Proof.
  induction n as [| n IH]; intros attempt w Hn.
  - exists []. cbn. rewrite Nat.add_0_r, app_nil_r.
    repeat split; auto; try lia. now destruct w.
  - cbn [for_attempts]. unfold Eff.bind.
    destruct (attempt_once_shape data retries attempt w) as [r Hr].
    rewrite Hr.
    assert (Hone : exists t,
               {| posts := S (posts w);
                  trace := trace w ++ [EvPost CONFIG.NODE_JS_URL data 5] |}
               = {| posts := posts w + outbound_calls t; trace := trace w ++ t |}
               /\ Forall (notifier_event data) t
               /\ outbound_calls t <= S n
               /\ sleeps t <= S n - 1
               /\ sleeps t <= outbound_calls t
               /\ (S n = 0 -> t = [])
               /\ (0 < S n ->
                   exists t', t = t' ++ [EvPost CONFIG.NODE_JS_URL data 5])).
    { exists [EvPost CONFIG.NODE_JS_URL data 5]. cbn.
      repeat split; try lia.
      - f_equal. lia.
      - constructor; [now left | constructor].
      - intros _. now exists []. }
    destruct r as [e | [v |]]; cbn [snd]; try exact Hone.
    set (w1 := {| posts := S (posts w); trace := _ |}).
    destruct (IH (attempt + 1)%Z w1 ltac:(lia))
      as (t2 & Ht2 & Hall & Hcalls & Hsleeps & Hle & Hnil & Hlast).
    rewrite Ht2. unfold w1. cbn [posts trace].
    destruct (attempt <? retries - 1)%Z eqn:Hlt.
    + apply Z.ltb_lt in Hlt.
      exists (EvPost CONFIG.NODE_JS_URL data 5
              :: EvSleep CONFIG.RETRY_DELAY :: t2).
      change (EvPost CONFIG.NODE_JS_URL data 5
              :: EvSleep CONFIG.RETRY_DELAY :: t2)
        with ([EvPost CONFIG.NODE_JS_URL data 5; EvSleep CONFIG.RETRY_DELAY]
                ++ t2).
      rewrite outbound_calls_app, sleeps_app.
      change (outbound_calls [EvPost CONFIG.NODE_JS_URL data 5;
                              EvSleep CONFIG.RETRY_DELAY]) with 1.
      change (sleeps [EvPost CONFIG.NODE_JS_URL data 5;
                      EvSleep CONFIG.RETRY_DELAY]) with 1.
      repeat split.
      * f_equal; [lia |]. rewrite <- !app_assoc. reflexivity.
      * apply Forall_app. split; [| exact Hall].
        constructor; [now left |]. constructor; [now right | constructor].
      * lia.
      * lia.
      * lia.
      * discriminate.
      * intros _. destruct Hlast as [t' Ht']; [lia |].
        exists (EvPost CONFIG.NODE_JS_URL data 5
                :: EvSleep CONFIG.RETRY_DELAY :: t').
        rewrite Ht'. reflexivity.
    + apply Z.ltb_ge in Hlt.
      assert (n = 0) by lia. subst n.
      rewrite (Hnil eq_refl). rewrite app_nil_r, Nat.add_0_r.
      exact Hone.
Qed.

(** What one invocation of the notifier leaves behind, whatever the server
    does. *)
Lemma send_to_nodejs_shape data retries w :
  exists t,
    snd (send_to_nodejs data retries w)
    = {| posts := posts w + outbound_calls t;
         trace := trace w ++ EvNotify data :: t |}
    /\ Forall (notifier_event data) t
    /\ outbound_calls t <= Z.to_nat retries
    /\ sleeps t <= Z.to_nat retries - 1
    /\ sleeps t <= outbound_calls t
    /\ ((retries <= 0)%Z -> t = [])
    /\ (t = [] \/ exists t', t = t' ++ [EvPost CONFIG.NODE_JS_URL data 5]).
Proof.
  unfold send_to_nodejs, Eff.bind, emit, Eff.modify.
  set (w1 := {| posts := posts w; trace := trace w ++ [EvNotify data] |}).
  destruct (Z.le_gt_cases retries 0) as [Hr | Hr].
  - replace (Z.to_nat retries) with 0 by lia.
    exists []. cbn. rewrite Nat.add_0_r.
    repeat split; auto.
  - destruct (for_attempts_shape data retries (Z.to_nat retries) 0 w1
                ltac:(lia))
      as (t & Ht & Hall & Hcalls & Hsleeps & Hle & _ & Hlast).
    exists t. rewrite Ht. unfold w1. cbn [posts trace].
    rewrite <- app_assoc. cbn [app].
    repeat split; auto; try lia.
    right. apply Hlast. lia.
Qed.

(** X1.  Whatever the downstream server does, one invocation of the notifier
    leaves in the trace, after its own mark, only POSTs of its payload to the
    configured URL with the 5 second timeout and sleeps of [RETRY_DELAY]; it
    makes at most [retries] outbound calls (none for [retries <= 0]) and
    sleeps at most [retries - 1] times, never more often than it calls; the
    counter of outbound calls advances by the number of POSTs; and the last
    thing it does is a POST, never a sleep. *)
Theorem send_to_nodejs_calls_bounded data retries w :
  exists t,
    snd (send_to_nodejs data retries w)
    = {| posts := posts w + outbound_calls t;
         trace := trace w ++ EvNotify data :: t |}
    /\ Forall (notifier_event data) t
    /\ outbound_calls t <= Z.to_nat retries
    /\ sleeps t <= Z.to_nat retries - 1
    /\ sleeps t <= outbound_calls t
    /\ ((retries <= 0)%Z -> t = [])
    /\ (t = [] \/ exists t', t = t' ++ [EvPost CONFIG.NODE_JS_URL data 5]).
Proof. apply send_to_nodejs_shape. Qed.

Lemma attempt_once_answered data retries attempt w v :
  answered (posts w) v ->
  attempt_once data retries attempt w = (inr (Some v), after_post data w).
Proof.
  intros (r & Ho & [[H200 Hj] | [Hs ->]]).
  - now apply attempt_once_200 with (r := r).
  - now apply attempt_once_other_status.
Qed.

Lemma attempt_once_uncaught data retries attempt w e :
  raises_uncaught (posts w) e ->
  attempt_once data retries attempt w = (inl e, after_post data w).
Proof.
  intros [He [Ho | (r & Ho & H200 & Hj)]];
    unfold attempt_once, Eff.try_except, Eff.bind, requests_post; rewrite Ho.
  - cbn. now rewrite He.
  - rewrite H200. cbn. rewrite Hj. cbn. now rewrite He.
Qed.

(** After [k] failed attempts that are retried, the loop stands at attempt
    [k] with [k] POSTs and [k] sleeps behind it. *)
Lemma for_attempts_retried data retries k : forall n attempt w,
  (attempt + Z.of_nat n = retries)%Z -> k < n ->
  (forall j, j < k -> request_error (posts w + j)) ->
  for_attempts data retries n attempt w
  = for_attempts data retries (n - k) (attempt + Z.of_nat k)
      {| posts := posts w + k; trace := trace w ++ retried_attempts data k |}.
Proof.
  induction k as [| k IH]; intros n attempt w Hn Hk Hfail.
  - cbn [retried_attempts]. rewrite Nat.sub_0_r, Nat.add_0_r, app_nil_r.
    replace (attempt + Z.of_nat 0)%Z with attempt by lia. now destruct w.
  - destruct n as [| n]; [lia |].
    assert (H0 : request_error (posts w)).
    { specialize (Hfail 0). rewrite Nat.add_0_r in Hfail. apply Hfail. lia. }
    cbn [for_attempts]. unfold Eff.bind at 1.
    rewrite (attempt_once_request_error data retries attempt w H0).
    assert (Hlt : (attempt <? retries - 1)%Z = true) by (apply Z.ltb_lt; lia).
    rewrite Hlt.
    rewrite (IH n (attempt + 1)%Z); [| lia | lia |].
    + cbn [posts trace retried_attempts Nat.sub].
      f_equal; [lia |]. f_equal; [lia |].
      now rewrite <- app_assoc.
    + intros j Hj. cbn [posts].
      replace (S (posts w) + j) with (posts w + S j) by lia.
      apply Hfail. lia.
Qed.

Lemma send_to_nodejs_uncaught data retries w k e :
  k < Z.to_nat retries ->
  (forall j, j < k -> request_error (posts w + j)) ->
  raises_uncaught (posts w + k) e ->
  send_to_nodejs data retries w =
  (inl e,
   {| posts := posts w + S k;
      trace := trace w ++ EvNotify data
                 :: retried_attempts data k
                 ++ [EvPost CONFIG.NODE_JS_URL data 5] |}).
Proof.
  intros Hk Hfail He.
  unfold send_to_nodejs, Eff.bind at 1, emit, Eff.modify.
  set (w1 := {| posts := posts w; trace := trace w ++ [EvNotify data] |}).
  rewrite (for_attempts_retried data retries k (Z.to_nat retries) 0 w1);
    [| lia | exact Hk | exact Hfail].
  destruct (Z.to_nat retries - k) as [| m] eqn:Hm; [lia |].
  cbn [for_attempts]. unfold Eff.bind.
  rewrite (attempt_once_uncaught data retries _ _ e) by exact He.
  unfold after_post, w1. cbn [posts trace].
  f_equal. f_equal; [lia |].
  rewrite <- !app_assoc. reflexivity.
Qed.

Lemma send_to_nodejs_answered data retries w k v :
  k < Z.to_nat retries ->
  (forall j, j < k -> request_error (posts w + j)) ->
  answered (posts w + k) v ->
  send_to_nodejs data retries w =
  (inr v,
   {| posts := posts w + S k;
      trace := trace w ++ EvNotify data
                 :: retried_attempts data k
                 ++ [EvPost CONFIG.NODE_JS_URL data 5] |}).
Proof.
  intros Hk Hfail Hv.
  unfold send_to_nodejs, Eff.bind at 1, emit, Eff.modify.
  set (w1 := {| posts := posts w; trace := trace w ++ [EvNotify data] |}).
  rewrite (for_attempts_retried data retries k (Z.to_nat retries) 0 w1);
    [| lia | exact Hk | exact Hfail].
  destruct (Z.to_nat retries - k) as [| m] eqn:Hm; [lia |].
  cbn [for_attempts]. unfold Eff.bind.
  rewrite (attempt_once_answered data retries _ _ v) by exact Hv.
  unfold after_post, w1, Eff.ret. cbn [posts trace].
  f_equal. f_equal; [lia |].
  rewrite <- !app_assoc. reflexivity.
Qed.

(** X2.  The first attempt that is answered decides: when the [k] first
    attempts end in request errors and attempt [k], still within [retries],
    is answered, the notifier returns the parsed body of a 200 or the
    partial-success dict of another status, after [k + 1] outbound calls with
    a sleep of [RETRY_DELAY] after each of the [k] failures, and makes no
    further call. *)
Theorem send_to_nodejs_first_answer data retries w k v :
  k < Z.to_nat retries ->
  (forall j, j < k -> request_error (posts w + j)) ->
  answered (posts w + k) v ->
  send_to_nodejs data retries w =
  (inr v,
   {| posts := posts w + S k;
      trace := trace w ++ EvNotify data
                 :: retried_attempts data k
                 ++ [EvPost CONFIG.NODE_JS_URL data 5] |}).
Proof. apply send_to_nodejs_answered. Qed.

(** ** Further properties: what a request sends downstream *)

Lemma outbound_calls_compare_events l : outbound_calls (compare_events l) = 0.
Proof. induction l as [| q l IH]; cbn; auto. Qed.

Lemma post_not_in_compare_events l url b tm :
  ~ In (EvPost url b tm) (compare_events l).
Proof.
  induction l as [| q l IH]; cbn; [intros [] |].
  intros [H | [H | H]]; [discriminate H | discriminate H | exact (IH H)].
Qed.

Lemma notifier_events_only data t :
  Forall (notifier_event data) t ->
  notifier_calls t = 0
  /\ forall url b tm, In (EvPost url b tm) t ->
       url = CONFIG.NODE_JS_URL /\ b = data /\ tm = 5%Z.
Proof.
  induction 1 as [| ev t Hev _ [IHn IHp]]; [split; [reflexivity | intros ? ? ? []] |].
  split.
  - destruct Hev as [-> | ->]; exact IHn.
  - intros url b tm [Heq | Hin]; [| now apply IHp].
    destruct Hev as [-> | ->]; [| discriminate].
    injection Heq as <- <- <-. auto.
Qed.

(** The response for a match: at most one invocation of the notifier, at
    most three outbound calls, all of them with the payload of the match. *)
Lemma respond_match_shape name c w :
  exists t,
    snd (respond_match name c w)
    = {| posts := posts w + outbound_calls t; trace := trace w ++ t |}
    /\ outbound_calls t <= 3 * notifier_calls t
    /\ notifier_calls t <= 1
    /\ (forall url b tm, In (EvPost url b tm) t ->
          url = CONFIG.NODE_JS_URL /\ b = result_data name c /\ tm = 5%Z).
Proof.
  destruct (CONFIG.MIN_CONFIDENCE <=? c)%float eqn:Hc.
  - rewrite (respond_match_high name c w Hc).
    destruct (send_to_nodejs_shape (result_data name c) CONFIG.MAX_RETRIES w)
      as (t & Ht & Hall & Hcalls & _).
    destruct (notifier_events_only _ _ Hall) as [Hn Hp].
    exists (EvNotify (result_data name c) :: t).
    assert (Hsnd : snd (match send_to_nodejs (result_data name c)
                                CONFIG.MAX_RETRIES w with
                        | (inl e, w') => (inl e, w')
                        | (inr v, w') =>
                            (inr (jsonify (notified_body name c v)), w')
                        end)
                   = snd (send_to_nodejs (result_data name c)
                            CONFIG.MAX_RETRIES w)).
    { now destruct (send_to_nodejs _ _ w) as [[e | v] w']. }
    rewrite Hsnd, Ht.
    change (outbound_calls (EvNotify (result_data name c) :: t))
      with (outbound_calls t).
    change (notifier_calls (EvNotify (result_data name c) :: t))
      with (S (notifier_calls t)).
    change (Z.to_nat CONFIG.MAX_RETRIES) with 3 in Hcalls.
    split; [reflexivity |]. split; [lia |]. split; [lia |].
    intros url b tm [H | H]; [discriminate | now apply Hp].
  - rewrite (respond_match_low name c w Hc). exists []. cbn [snd].
    cbn. rewrite Nat.add_0_r, app_nil_r.
    split; [now destruct w |]. split; [lia |]. split; [lia |].
    intros url b tm [].
Qed.

Lemma for_face_encodings_shape encs names l : forall w,
  exists t,
    snd (for_face_encodings encs names l w)
    = {| posts := posts w + outbound_calls t; trace := trace w ++ t |}
    /\ outbound_calls t <= 3 * notifier_calls t
    /\ notifier_calls t <= 1
    /\ (forall url b tm, In (EvPost url b tm) t ->
          url = CONFIG.NODE_JS_URL /\ tm = 5%Z
          /\ exists name c,
              b = result_data name c
              /\ forall r,
                  fst (for_face_encodings encs names l w) = inr r ->
                  field "name" (body r) = Some (PyStr name)
                  /\ field "confidence" (body r)
                     = Some (PyStr (format_confidence c))).
Proof.
  induction l as [| q l IH]; intros w.
  - exists []. cbn. rewrite Nat.add_0_r, app_nil_r.
    split; [now destruct w |]. split; [lia |]. split; [lia |].
    intros url b tm [].
  - cbn [for_face_encodings]. unfold Eff.bind. rewrite match_face_run.
    destruct (match_result encs names q) as [e | [[name c] |]].
    + exists (compare_events [q]). cbn [snd].
      rewrite outbound_calls_compare_events, notifier_calls_compare_events.
      rewrite Nat.add_0_r.
      split; [reflexivity |]. split; [lia |]. split; [lia |].
      intros url b tm H; now apply post_not_in_compare_events in H.
    + destruct (respond_match_shape name c (after_compare [q] w))
        as (t & Ht & Hcalls & Hn & Hp).
      exists (compare_events [q] ++ t). rewrite Ht.
      rewrite outbound_calls_app, notifier_calls_app.
      rewrite outbound_calls_compare_events, notifier_calls_compare_events.
      unfold after_compare. cbn [posts trace].
      rewrite <- app_assoc.
      split; [reflexivity |]. split; [lia |]. split; [lia |].
      intros url b tm Hin. apply in_app_or in Hin.
      destruct Hin as [Hin | Hin];
        [now apply post_not_in_compare_events in Hin |].
      destruct (Hp url b tm Hin) as (Hu & Hb & Htm).
      split; [exact Hu |]. split; [exact Htm |].
      exists name, c. split; [exact Hb |].
      intros r Hr.
      destruct (respond_match name c
                  {| posts := posts w;
                     trace := trace w ++ compare_events [q] |})
        as [res w'] eqn:Hrun.
      cbn [fst] in Hr. subst res.
      destruct (respond_match_fields _ _ _ _ _ Hrun) as (_ & _ & H1 & H2).
      split; assumption.
    + destruct (IH (after_compare [q] w)) as (t & Ht & Hcalls & Hn & Hp).
      exists (compare_events [q] ++ t). rewrite Ht.
      rewrite outbound_calls_app, notifier_calls_app.
      rewrite outbound_calls_compare_events, notifier_calls_compare_events.
      unfold after_compare. cbn [posts trace].
      rewrite <- app_assoc.
      split; [reflexivity |]. split; [lia |]. split; [lia |].
      intros url b tm Hin. apply in_app_or in Hin.
      destruct Hin as [Hin | Hin];
        [now apply post_not_in_compare_events in Hin |].
      exact (Hp url b tm Hin).
Qed.

(** The same for a whole request: the two [except] clauses change neither
    the world nor a response that was returned. *)
Lemma compare_faces_shape encs names req w :
  exists res t,
    compare_faces encs names req w
    = (res, {| posts := posts w + outbound_calls t; trace := trace w ++ t |})
    /\ outbound_calls t <= 3 * notifier_calls t
    /\ notifier_calls t <= 1
    /\ (forall url b tm, In (EvPost url b tm) t ->
          url = CONFIG.NODE_JS_URL /\ tm = 5%Z
          /\ exists name c,
              b = result_data name c
              /\ forall r,
                  res = inr r -> status r = 200%Z ->
                  field "name" (body r) = Some (PyStr name)
                  /\ field "confidence" (body r)
                     = Some (PyStr (format_confidence c))).
Proof.
  assert (Hnothing : forall res : exn + http_response,
             exists res' t,
               (res, w)
               = (res', {| posts := posts w + outbound_calls t;
                           trace := trace w ++ t |})
               /\ outbound_calls t <= 3 * notifier_calls t
               /\ notifier_calls t <= 1
               /\ (forall url b tm, In (EvPost url b tm) t ->
                     url = CONFIG.NODE_JS_URL /\ tm = 5%Z
                     /\ exists name c,
                         b = result_data name c
                         /\ forall r,
                             res' = inr r ->
                             status r = 200%Z ->
                             field "name" (body r) = Some (PyStr name)
                             /\ field "confidence" (body r)
                                = Some (PyStr (format_confidence c)))).
  { intros res. exists res, []. cbn. rewrite Nat.add_0_r, app_nil_r.
    split; [now destruct w |]. split; [lia |]. split; [lia |].
    intros url b tm []. }
  unfold compare_faces.
  destruct (files_get "image" (files req)) as [image_file |];
    [| unfold Eff.ret; apply Hnothing].
  unfold Eff.try_except, Eff.bind.
  destruct (stream image_file) as [| b0 data0];
    [cbn; unfold Eff.ret; apply Hnothing |].
  unfold Eff.ret at 1.
  destruct (load_image_file _) as [e | img];
    [destruct e; cbn; unfold Eff.ret; apply Hnothing |].
  cbn [Eff.lift]. unfold Eff.ret at 1.
  destruct (face_encodings img) as [e | [| q l]];
    [destruct e; cbn; unfold Eff.ret; apply Hnothing
    | cbn; unfold Eff.ret; apply Hnothing |].
  cbn [Eff.lift]. unfold Eff.ret at 1.
  destruct (for_face_encodings_shape encs names (q :: l) w)
    as (t & Ht & Hcalls & Hn & Hp).
  destruct (for_face_encodings encs names (q :: l) w) as [[e | r0] w'];
    cbn [snd fst] in Ht, Hp; subst w'.
  - exists (inr (error_response e)), t.
    split; [destruct e; reflexivity |].
    split; [exact Hcalls |]. split; [exact Hn |].
    intros url b tm Hin.
    destruct (Hp url b tm Hin) as (Hu & Htm & name & c & Hb & _).
    split; [exact Hu |]. split; [exact Htm |].
    exists name, c. split; [exact Hb |].
    intros r Hr Hs. injection Hr as <-.
    now apply error_response_status in Hs.
  - exists (inr r0), t.
    split; [reflexivity |]. split; [exact Hcalls |]. split; [exact Hn |].
    intros url b tm Hin.
    destruct (Hp url b tm Hin) as (Hu & Htm & name & c & Hb & Hf).
    split; [exact Hu |]. split; [exact Htm |].
    exists name, c. split; [exact Hb |].
    intros r Hr _. now apply Hf.
Qed.

(** X3.  No request makes more than three outbound calls, and none is made
    without an invocation of the notifier; the counter of outbound calls
    advances by the number of POSTs the request leaves in the trace. *)
Theorem outbound_calls_per_request encs names req w :
  exists t,
    trace (snd (compare_faces encs names req w)) = trace w ++ t
    /\ posts (snd (compare_faces encs names req w))
       = posts w + outbound_calls t
    /\ outbound_calls t <= 3
    /\ (notifier_calls t = 0 -> outbound_calls t = 0).
Proof.
  destruct (compare_faces_shape encs names req w)
    as (res & t & Hrun & Hcalls & Hn & _).
  exists t. rewrite Hrun. cbn [snd posts trace].
  repeat split; lia.
Qed.

(** X4.  What is sent downstream is what the client is told: every POST a
    request makes goes to the configured URL with the 5 second timeout and
    carries a name and a confidence, and when the request is answered with a
    200 these are the name and the confidence of the response. *)
Theorem posted_payload_matches_response encs names req w r w' :
  compare_faces encs names req w = (inr r, w') ->
  exists t,
    trace w' = trace w ++ t
    /\ forall url b tm,
        In (EvPost url b tm) t ->
        url = CONFIG.NODE_JS_URL /\ tm = 5%Z
        /\ exists name confidence,
            b = PyDict [("name", PyStr name); ("confidence", PyStr confidence)]
            /\ (status r = 200%Z ->
                field "name" (body r) = Some (PyStr name)
                /\ field "confidence" (body r) = Some (PyStr confidence)).
Proof.
  intros Hrun.
  destruct (compare_faces_shape encs names req w)
    as (res & t & Hshape & _ & _ & Hp).
  rewrite Hshape in Hrun. injection Hrun as -> <-.
  exists t. split; [reflexivity |].
  intros url b tm Hin.
  destruct (Hp url b tm Hin) as (Hu & Htm & name & c & Hb & Hf).
  split; [exact Hu |]. split; [exact Htm |].
  exists name, (format_confidence c). split; [exact Hb |].
  intros Hs. now apply Hf.
Qed.

(** X5.  An exception of the outbound call that is not a [RequestException]
    is neither retried nor kept inside a 200: when it is raised by an attempt
    of the notification of a match, after failures that were retried, the
    handler answers 500 with the text of the exception and makes no further
    call. *)
Theorem uncaught_notifier_exception_is_500
        encs names req pre q rest name c w k msg :
  detected req (pre ++ q :: rest) ->
  (forall p, In p pre -> match_result encs names p = inr None) ->
  match_result encs names q = inr (Some (name, c)) ->
  (CONFIG.MIN_CONFIDENCE <=? c)%float = true ->
  k < 3 ->
  (forall j, j < k -> request_error (posts w + j)) ->
  raises_uncaught (posts w + k) (OtherException msg) ->
  compare_faces encs names req w =
  (inr {| status := 500;
          body := PyDict
            [("status", PyStr "error");
             ("message", PyStr ("Error processing the image: " ++ msg))] |},
   {| posts := posts w + S k;
      trace := (trace w ++ compare_events (pre ++ [q]))
                 ++ EvNotify (result_data name c)
                 :: retried_attempts (result_data name c) k
                 ++ [EvPost CONFIG.NODE_JS_URL (result_data name c) 5] |}).
Proof.
  intros Hd Hpre Hq Hconf Hk Hfail He.
  rewrite (compare_faces_first_match encs names req pre q rest name c w
             Hd Hpre Hq).
  rewrite (respond_match_high name c _ Hconf).
  rewrite (send_to_nodejs_uncaught (result_data name c) CONFIG.MAX_RETRIES
             (after_compare (pre ++ [q]) w) k (OtherException msg));
    [reflexivity | exact Hk | exact Hfail | exact He].
Qed.

(** X6.  The notifier's answer goes into the response by its truth value:
    when the notification of a match is answered by a 200, after failures
    that were retried, a parsed body that is falsy (JSON [null], [false],
    [0], an empty string, array or object) gives the response of a failed
    notification, [node_status] "Data sent but no response from Node.js";
    any other body is passed on as [node_response]. *)
Theorem falsy_answer_reported_as_no_response
        encs names req pre q rest name c w k r v :
  detected req (pre ++ q :: rest) ->
  (forall p, In p pre -> match_result encs names p = inr None) ->
  match_result encs names q = inr (Some (name, c)) ->
  (CONFIG.MIN_CONFIDENCE <=? c)%float = true ->
  k < 3 ->
  (forall j, j < k -> request_error (posts w + j)) ->
  post_outcome (posts w + k) = inr r -> status_code r = 200%Z ->
  json r = inr v ->
  (truthy v = false ->
   fst (compare_faces encs names req w)
   = inr {| status := 200;
            body := PyDict
              [("status", PyStr "success");
               ("message", PyStr ("Match Found! Name: " ++ name));
               ("name", PyStr name);
               ("confidence", PyStr (format_confidence c));
               ("node_status",
                PyStr "Data sent but no response from Node.js")] |})
  /\ (truthy v = true ->
      fst (compare_faces encs names req w)
      = inr {| status := 200;
               body := PyDict
                 [("status", PyStr "success");
                  ("message", PyStr ("Match Found! Name: " ++ name));
                  ("name", PyStr name);
                  ("confidence", PyStr (format_confidence c));
                  ("node_response", v)] |}).
Proof.
  intros Hd Hpre Hq Hconf Hk Hfail Ho H200 Hj.
  rewrite (compare_faces_first_match encs names req pre q rest name c w
             Hd Hpre Hq).
  rewrite (respond_match_high name c _ Hconf).
  assert (Hv : answered (posts (after_compare (pre ++ [q]) w) + k) v).
  { exists r. split; [exact Ho |]. left. now split. }
  rewrite (send_to_nodejs_answered (result_data name c) CONFIG.MAX_RETRIES
             (after_compare (pre ++ [q]) w) k v Hk Hfail Hv).
  cbn [fst]. unfold notified_body.
  split; intros Ht; rewrite Ht; reflexivity.
Qed.

(** ** Further properties: what a response tells *)

Lemma index_true_map_inv {A} (f : A -> bool) (l : list A) : forall i,
  index_true (map f l) = Some i ->
  exists a, nth_error l i = Some a /\ f a = true
            /\ (forall j b, nth_error l j = Some b -> f b = true -> i <= j).
Proof.
  induction l as [| x l IH]; intros i H; cbn in H; [discriminate |].
  destruct (f x) eqn:Hx.
  - injection H as <-. exists x. repeat split; auto. intros; lia.
  - destruct (index_true (map f l)) as [k |] eqn:Hk; cbn in H;
      [| discriminate].
    injection H as <-.
    destruct (IH k eq_refl) as (a & Ha & Hfa & Hmin).
    exists a. repeat split; auto.
    intros [| j] b Hj Hb; cbn in Hj.
    + congruence.
    + specialize (Hmin j b Hj Hb). lia.
Qed.

(** A match comes from a gallery entry: the first one within the
    tolerance. *)
Lemma match_result_some_inv encs names q name c :
  match_result encs names q = inr (Some (name, c)) ->
  exists i a,
    nth_error encs i = Some a /\ nth_error names i = Some name
    /\ within_tolerance a q = true
    /\ (forall j b, nth_error encs j = Some b ->
                    within_tolerance b q = true -> i <= j)
    /\ c = confidence_of a q.
Proof.
  unfold match_result, match_face, Eff.bind, emit, Eff.modify.
  cbn [fst posts trace world0].
  rewrite compare_faces_flags, contains_true_map.
  destruct (existsb _ encs); [| discriminate].
  destruct (index_true _) as [i |] eqn:Hidx; [| discriminate].
  unfold Eff.ret.
  destruct (nth_error names i) as [n |] eqn:Hn; [| discriminate].
  destruct (nth_error (face_recognition_face_distance encs q) i)
    as [d |] eqn:Hd; [| discriminate].
  cbn. intros H. injection H as -> <-.
  destruct (index_true_map_inv _ _ _ Hidx) as (a & Ha & Hw & Hmin).
  exists i, a. repeat split; auto.
  unfold face_recognition_face_distance in Hd.
  rewrite (map_nth_error (fun k => face_dist k q) i encs Ha) in Hd.
  injection Hd as <-. reflexivity.
Qed.

(** No match means that no gallery entry is within the tolerance. *)
Lemma match_result_none_inv encs names q :
  match_result encs names q = inr None ->
  forall a, In a encs -> within_tolerance a q = false.
Proof.
  unfold match_result, match_face, Eff.bind, emit, Eff.modify.
  cbn [fst posts trace world0].
  rewrite compare_faces_flags, contains_true_map.
  destruct (existsb _ encs) eqn:Hex.
  - destruct (index_true _) as [i |]; [| discriminate].
    unfold Eff.ret.
    destruct (nth_error names i); [| discriminate].
    destruct (nth_error _ i); discriminate.
  - intros _ a Hin.
    destruct (within_tolerance a q) eqn:Hw; [| reflexivity].
    assert (H : existsb (fun a => within_tolerance a q) encs = true)
      by (apply existsb_exists; now exists a).
    congruence.
Qed.

(** A response returned by the loop is the "not found" one, after every face
    was compared without a match, or the response for a match of one of the
    faces. *)
Lemma for_face_encodings_returns encs names l : forall w r w',
  for_face_encodings encs names l w = (inr r, w') ->
  (r = jsonify not_found_body
   /\ forall q, In q l -> match_result encs names q = inr None)
  \/ exists q name c w1,
      In q l /\ match_result encs names q = inr (Some (name, c))
      /\ respond_match name c w1 = (inr r, w').
Proof.
  induction l as [| q l IH]; intros w r w' H.
  - cbn in H. injection H as <- _. left. split; [reflexivity | intros ? []].
  - cbn [for_face_encodings] in H. unfold Eff.bind in H.
    rewrite match_face_run in H.
    destruct (match_result encs names q) as [e | [[name c] |]] eqn:Hq.
    + discriminate.
    + right. exists q, name, c, (after_compare [q] w).
      split; [now left |]. split; [exact Hq | exact H].
    + destruct (IH _ _ _ H) as [[Hr Hall] | (q' & name & c & w1 & Hin & Hm & Hr)].
      * left. split; [exact Hr |].
        intros p [<- | Hp]; [exact Hq | now apply Hall].
      * right. exists q', name, c, w1. split; [now right |]. now split.
Qed.

Lemma error_response_field e :
  field "status" (body (error_response e)) = Some (PyStr "error").
Proof. unfold error_response. now destruct (is_FaceRecognitionError e). Qed.

(** What the handler does once the faces are known. *)
Lemma compare_faces_detected_cases encs names req l w r w' :
  detected req l ->
  compare_faces encs names req w = (inr r, w') ->
  field "status" (body r) = Some (PyStr "error")
  \/ for_face_encodings encs names l w = (inr r, w').
Proof.
  intros Hd Hrun.
  destruct l as [| q l].
  - left. destruct Hd as (image_file & img & Hf & Hs & Hl & He).
    unfold compare_faces in Hrun. rewrite Hf in Hrun.
    unfold Eff.try_except, Eff.bind in Hrun.
    destruct (stream image_file) as [| b0 data0]; [congruence |].
    unfold Eff.ret at 1 in Hrun. rewrite Hl in Hrun.
    cbn [Eff.lift] in Hrun. unfold Eff.ret at 1 in Hrun.
    rewrite He in Hrun. cbn in Hrun. injection Hrun as <- _. reflexivity.
  - rewrite (compare_faces_detected encs names req (q :: l) w Hd)
      in Hrun by discriminate.
    destruct (for_face_encodings encs names (q :: l) w) as [[e | r0] w0].
    + left. injection Hrun as <- _. apply error_response_field.
    + right. exact Hrun.
Qed.

(** What a "success" response says about the gallery. *)
Lemma compare_faces_success_inv encs names req faces w r w' :
  detected req faces ->
  compare_faces encs names req w = (inr r, w') ->
  field "status" (body r) = Some (PyStr "success") ->
  exists q i a name,
    In q faces
    /\ nth_error encs i = Some a /\ nth_error names i = Some name
    /\ within_tolerance a q = true
    /\ (forall j b, nth_error encs j = Some b ->
                    within_tolerance b q = true -> i <= j)
    /\ field "name" (body r) = Some (PyStr name)
    /\ field "confidence" (body r)
       = Some (PyStr (format_confidence (confidence_of a q))).
Proof.
  intros Hd Hrun Hs.
  destruct (compare_faces_detected_cases encs names req faces w r w' Hd Hrun)
    as [Herr | Hloop]; [congruence |].
  destruct (for_face_encodings_returns _ _ _ _ _ _ Hloop)
    as [[-> _] | (q & name & c & w1 & Hin & Hm & Hr)]; [discriminate Hs |].
  destruct (match_result_some_inv _ _ _ _ _ Hm)
    as (i & a & Ha & Hn & Hw & Hmin & ->).
  destruct (respond_match_fields _ _ _ _ _ Hr) as (_ & _ & Hname & Hconf).
  exists q, i, a, name. repeat split; auto.
Qed.

(** X7.  The handler never invents a match: a response whose status is
    "success" names a gallery entry that is within the tolerance of one of
    the detected faces, the first such entry of the gallery, and its
    confidence is the one computed from the distance of that entry. *)
Theorem success_names_a_gallery_entry encs names req faces w r w' :
  detected req faces ->
  compare_faces encs names req w = (inr r, w') ->
  field "status" (body r) = Some (PyStr "success") ->
  exists q i a name,
    In q faces
    /\ nth_error encs i = Some a /\ nth_error names i = Some name
    /\ within_tolerance a q = true
    /\ (forall j b, nth_error encs j = Some b ->
                    within_tolerance b q = true -> i <= j)
    /\ field "name" (body r) = Some (PyStr name)
    /\ field "confidence" (body r)
       = Some (PyStr (format_confidence (confidence_of a q))).
Proof. exact (compare_faces_success_inv encs names req faces w r w'). Qed.

(** X8.  "Not found" is answered only when it is true: a response whose
    status is "not_found" means that every detected face was compared with
    the gallery and that no gallery entry is within the tolerance of any of
    them; nothing was sent downstream. *)
Theorem not_found_means_no_match encs names req faces w r w' :
  detected req faces ->
  compare_faces encs names req w = (inr r, w') ->
  field "status" (body r) = Some (PyStr "not_found") ->
  (forall q a, In q faces -> In a encs -> within_tolerance a q = false)
  /\ w' = after_compare faces w.
Proof.
  intros Hd Hrun Hs.
  destruct (compare_faces_detected_cases encs names req faces w r w' Hd Hrun)
    as [Herr | Hloop]; [congruence |].
  destruct (for_face_encodings_returns _ _ _ _ _ _ Hloop)
    as [[-> Hall] | (q & name & c & w1 & Hin & Hm & Hr)].
  - split.
    + intros q a Hq Ha. now apply (match_result_none_inv encs names q (Hall q Hq)).
    + rewrite (for_face_encodings_no_match encs names faces w Hall) in Hloop.
      now injection Hloop as <-.
  - destruct (respond_match_fields _ _ _ _ _ Hr) as (_ & Hst & _).
    congruence.
Qed.

(** X9.  The handler answers every request: no exception leaves it, and the
    answer is a 200 whose status is "success" or "not_found", or a 400 or a
    500 whose status is "error". *)
Theorem compare_faces_always_answers encs names req w :
  exists r w',
    compare_faces encs names req w = (inr r, w')
    /\ ((status r = 200%Z
         /\ (field "status" (body r) = Some (PyStr "success")
             \/ field "status" (body r) = Some (PyStr "not_found")))
        \/ ((status r = 400%Z \/ status r = 500%Z)
            /\ field "status" (body r) = Some (PyStr "error"))).
Proof.
  assert (Herror : forall (e : exn) (w0 : world),
             exists r w',
               (@inr exn http_response (error_response e), w0) = (inr r, w')
               /\ ((status r = 200%Z
                    /\ (field "status" (body r) = Some (PyStr "success")
                        \/ field "status" (body r)
                           = Some (PyStr "not_found")))
                   \/ ((status r = 400%Z \/ status r = 500%Z)
                       /\ field "status" (body r) = Some (PyStr "error")))).
  { intros e w0. exists (error_response e), w0. split; [reflexivity |].
    right. unfold error_response.
    destruct (is_FaceRecognitionError e); cbn; auto. }
  unfold compare_faces.
  destruct (files_get "image" (files req)) as [image_file |].
  2: { eexists. eexists. split; [reflexivity |]. right. cbn. auto. }
  unfold Eff.try_except, Eff.bind.
  destruct (stream image_file) as [| b0 data0].
  { exact (Herror (FaceRecognitionError "Empty image data") w). }
  unfold Eff.ret at 1.
  destruct (load_image_file _) as [e | img].
  { destruct e as [m | m | m];
      [exact (Herror (FaceRecognitionError m) w)
      | exact (Herror (RequestException m) w)
      | exact (Herror (OtherException m) w)]. }
  cbn [Eff.lift]. unfold Eff.ret at 1.
  destruct (face_encodings img) as [e | [| q l]].
  { destruct e as [m | m | m];
      [exact (Herror (FaceRecognitionError m) w)
      | exact (Herror (RequestException m) w)
      | exact (Herror (OtherException m) w)]. }
  { eexists. eexists. split; [reflexivity |]. right. cbn. auto. }
  cbn [Eff.lift]. unfold Eff.ret at 1.
  destruct (for_face_encodings encs names (q :: l) w) as [[e | r] w'] eqn:Hloop.
  { destruct e as [m | m | m];
      [exact (Herror (FaceRecognitionError m) w')
      | exact (Herror (RequestException m) w')
      | exact (Herror (OtherException m) w')]. }
  exists r, w'. split; [reflexivity |]. left.
  destruct (for_face_encodings_returns _ _ _ _ _ _ Hloop)
    as [[-> _] | (q' & name & c & w1 & _ & _ & Hr)].
  - split; [reflexivity | now right].
  - destruct (respond_match_fields _ _ _ _ _ Hr) as (Hst & Hf & _).
    split; [exact Hst | now left].
Qed.

(** X10.  A failure of the Embedding Provider on the upload, while decoding
    the image or while extracting the faces, is answered with a 500 that
    carries the text of the exception; nothing is compared and nothing is
    sent downstream. *)
Theorem decode_failure_is_500 encs names req w image_file msg :
  files_get "image" (files req) = Some image_file ->
  stream image_file <> [] ->
  (load_image_file (FromBytes (stream image_file)) = inl (OtherException msg)
   \/ exists img,
       load_image_file (FromBytes (stream image_file)) = inr img
       /\ face_encodings img = inl (OtherException msg)) ->
  compare_faces encs names req w
  = (inr {| status := 500;
            body := PyDict
              [("status", PyStr "error");
               ("message", PyStr ("Error processing the image: " ++ msg))] |},
     w).
Proof.
  intros Hf Hs Hfail. unfold compare_faces. rewrite Hf.
  unfold Eff.try_except, Eff.bind.
  destruct (stream image_file) as [| b0 data0] eqn:Hdata; [congruence |].
  unfold Eff.ret at 1.
  destruct Hfail as [Hl | (img & Hl & He)]; rewrite Hl.
  - reflexivity.
  - cbn [Eff.lift]. unfold Eff.ret at 1. now rewrite He.
Qed.

(** ** Further properties: the gallery loader *)









(** X12.  Nothing that happens to a file stops the loader: it raises only
    when the folder exists and cannot be listed, and then it raises the
    exception of [os.listdir]. *)
Theorem load_known_faces_fails_only_on_listdir e :
  load_known_faces = inl e
  <-> path_exists CONFIG.FACE_FOLDER = true
      /\ listdir CONFIG.FACE_FOLDER = inl e.
Proof.
  unfold load_known_faces.
  destruct (path_exists CONFIG.FACE_FOLDER); cbn [negb].
  - unfold Eff.bind.
    destruct (listdir CONFIG.FACE_FOLDER) as [e0 | filenames]; cbn [Eff.lift].
    + cbn. split.
      * intros H. injection H as ->. now split.
      * intros [_ H]. now injection H as ->.
    + unfold Eff.ret at 1. rewrite for_each_load_face. split.
      * discriminate.
      * intros [_ H]. discriminate H.
  - cbn. split; [discriminate | intros [H _]; discriminate H].
Qed.

(** ** Further properties: the service as it is started

    Line 100 loads the gallery once, and the handler reads the two lists it
    returned. *)


End Service.

Arguments world0 {encoding}.
Arguments posts {encoding}.
Arguments trace {encoding}.
Arguments EvCompareFaces {encoding}.
Arguments EvFaceDistance {encoding}.
Arguments EvNotify {encoding}.
Arguments EvPost {encoding}.
Arguments EvSleep {encoding}.
Arguments notifier_calls {encoding}.
Arguments outbound_calls {encoding}.
Arguments compared {encoding}.
Arguments after_compare {encoding}.
Arguments send_to_nodejs {encoding}.
Arguments failed_iff_network_errors {encoding}.
Arguments sleeps {encoding}.
Arguments retried_attempts {encoding}.
Arguments notifier_event {encoding}.
Arguments load_known_faces {image encoding}.
Arguments entry_of {image encoding}.
Arguments gallery_of {image encoding}.
Arguments within_tolerance {encoding}.
Arguments confidence_of {encoding}.
Arguments face_recognition_compare_faces {encoding}.
Arguments match_face {encoding}.
Arguments match_result {encoding}.
Arguments respond_match {encoding}.
Arguments detected {image encoding}.
Arguments compare_faces {image encoding}.

(** ** The theorems at work on the sample collaborators *)

Local Abbreviation sample_gallery_handler post :=
  (compare_faces post Sample.load_image_file Sample.face_encodings
                 Sample.face_dist Sample.gallery_encodings Sample.gallery_names).

Local Abbreviation sample_detected :=
  (detected Sample.load_image_file Sample.face_encodings).

Local Abbreviation sample_match :=
  (match_result Sample.face_dist Sample.gallery_encodings Sample.gallery_names).

Local Abbreviation url := CONFIG.NODE_JS_URL.

(** Faces are detected in a non-empty upload: one per byte. *)
Lemma sample_upload_detected b data :
  sample_detected (Sample.upload (b :: data))
                  (Sample.faces_of_bytes (b :: data)).
Proof.
  exists {| content_type := "image/jpeg"; stream := b :: data |},
         (Sample.faces_of_bytes (b :: data)).
  repeat split. discriminate.
Defined.

(** Face 9 matches nobody in the sample gallery. *)
Lemma sample_no_match_9 p : In p [9] -> sample_match p = inr None.
Proof. intros [<- | []]. reflexivity. Defined.

(** The scenario of the specification: the query is at 0.3 of alice and at
    0.1 of bob, alice comes first in the gallery, and alice is returned with
    a confidence of 70.00%. *)
Example scenario_alice_before_bob :
  sample_match 7 = inr (Some ("alice", 70%float))
  /\ format_confidence 70 = "70.00%"
  /\ (Sample.face_dist 2%nat 7%nat <? Sample.face_dist 1%nat 7%nat)%float = true.
Proof. repeat split. Qed.

(** An instance of C1: the sample gallery and the face at 0.3 of alice and
    0.1 of bob. *)
Lemma match_face_first_in_order_witness :
  (exists i a name,
      nth_error Sample.gallery_encodings i = Some a
      /\ nth_error Sample.gallery_names i = Some name
      /\ within_tolerance Sample.face_dist a 7 = true
      /\ (forall j b, nth_error Sample.gallery_encodings j = Some b ->
                      within_tolerance Sample.face_dist b 7 = true -> i <= j)
      /\ fst (match_face Sample.face_dist Sample.gallery_encodings
                         Sample.gallery_names 7 world0)
         = inr (Some (name, confidence_of Sample.face_dist a 7)))
  /\ fst (match_face Sample.face_dist Sample.gallery_encodings
                     Sample.gallery_names 7 world0)
     = inr (Some ("alice", confidence_of Sample.face_dist 1 7)).
Proof.
  destruct (match_face_first_in_order nat Sample.face_dist
              Sample.gallery_encodings Sample.gallery_names 7 world0)
    as [Hfirst Hpair].
  split.
  - apply Hfirst; [reflexivity |].
    exists 1. split; [left; reflexivity | reflexivity].
  - apply (Hpair 0 1 1 2 "alice"); try reflexivity.
    + apply le_n.
    + intros j b Hj. inversion Hj.
Defined.

(** Instances of C2: a server that answers 200, one that answers 404, and
    one that cannot be reached. *)
Lemma send_to_nodejs_outcomes_witness :
  let data := PyStr "x" in
  send_to_nodejs Sample.answers_200 data 3 (@world0 nat) =
  (inr (PyDict [("ok", PyBool true)]),
   {| posts := 1; trace := [EvNotify data; EvPost url data 5] |})
  /\ send_to_nodejs Sample.answers_404 data 3 (@world0 nat) =
     (inr (PyDict [("status", PyStr "partial_success");
                   ("message",
                    PyStr "Data sent but Node.js returned non-200 status");
                   ("node_status", PyInt 404)]),
      {| posts := 1; trace := [EvNotify data; EvPost url data 5] |})
  /\ send_to_nodejs Sample.unreachable data 3 (@world0 nat) =
     (inr PyNone,
      {| posts := 3;
         trace := [EvNotify data;
                   EvPost url data 5; EvSleep 1;
                   EvPost url data 5; EvSleep 1;
                   EvPost url data 5] |})
  /\ ((forall k, k < 3 -> request_error Sample.unreachable (0 + k))
      \/ exists k r,
          k < 3
          /\ (forall j, j < k -> request_error Sample.unreachable (0 + j))
          /\ Sample.unreachable (0 + k) = inr r
          /\ status_code r = 200%Z /\ json r = inr PyNone).
Proof.
  cbv zeta.
  split; [| split; [| split]].
  - apply (proj1 (send_to_nodejs_outcomes nat Sample.answers_200
                    (PyStr "x") 3 world0)
             {| status_code := 200; json := inr (PyDict [("ok", PyBool true)]) |}
             (PyDict [("ok", PyBool true)]));
      reflexivity.
  - apply (proj1 (proj2 (send_to_nodejs_outcomes nat Sample.answers_404
                           (PyStr "x") 3 world0))
             {| status_code := 404; json := inl (OtherException "not JSON") |});
      [reflexivity | reflexivity | discriminate].
  - apply (proj1 (proj2 (proj2 (send_to_nodejs_outcomes nat Sample.unreachable
                                  (PyStr "x") 3 world0)))).
    intros k _. left. exists "timed out". reflexivity.
  - apply (proj2 (proj2 (proj2 (send_to_nodejs_outcomes nat Sample.unreachable
                                  (PyStr "x") 3 world0)))
             {| posts := 3;
                trace := [EvNotify (PyStr "x");
                          EvPost url (PyStr "x") 5; EvSleep 1;
                          EvPost url (PyStr "x") 5; EvSleep 1;
                          EvPost url (PyStr "x") 5] |}).
    reflexivity.
Defined.

(** C2, the claim as stated fails.  A server that is out of reach twice and
    answers the third attempt with a 200 whose body is the JSON [null] makes
    the notifier return [None], the value it returns when it has failed,
    after three outbound calls, although the last attempt did not end in a
    network-level error. *)
Lemma send_to_nodejs_none_without_network_error :
  ~ failed_iff_network_errors Sample.recovers_with_null (PyStr "x") 3
      (@world0 nat).
Proof.
  intros [H _].
  assert (Hnone : exists w',
             send_to_nodejs Sample.recovers_with_null (PyStr "x") 3
                            (@world0 nat) = (inr PyNone, w')
             /\ posts w' = posts (@world0 nat) + Z.to_nat 3).
  { eexists. split; reflexivity. }
  destruct (H Hnone 2) as [msg Hmsg]; [cbn; lia |].
  discriminate Hmsg.
Qed.

(** So does a server that answers the first attempt with such a 200: [None]
    after a single call. *)
Example null_body_returns_none :
  send_to_nodejs Sample.answers_null (PyStr "x") 3 (@world0 nat)
  = (inr PyNone,
     {| posts := 1;
        trace := [EvNotify (PyStr "x"); EvPost url (PyStr "x") 5] |}).
Proof. reflexivity. Qed.

(** The caller of the notifier cannot tell the two apart either: the handler
    reports a 200 whose body is [null] as it reports a server out of reach. *)
Example null_body_reported_as_no_response :
  fst (sample_gallery_handler Sample.answers_null (Sample.upload [Byte.x07])
         world0)
  = fst (sample_gallery_handler Sample.unreachable (Sample.upload [Byte.x07])
           world0).
Proof. reflexivity. Qed.

(** A 200 is not always final either: when [response.json()] raises a
    [RequestException] the attempt is retried like a network failure. *)
Example undecodable_200_is_retried :
  send_to_nodejs Sample.answers_html (PyStr "x") 3 (@world0 nat)
  = (inr PyNone,
     {| posts := 3;
        trace := [EvNotify (PyStr "x");
                  EvPost url (PyStr "x") 5; EvSleep 1;
                  EvPost url (PyStr "x") 5; EvSleep 1;
                  EvPost url (PyStr "x") 5] |}).
Proof. reflexivity. Qed.

(** Instances of C3: face 7 matches alice at 70%, face 8 at 60%; face 9
    matches nobody. *)
Lemma confidence_threshold_gate_witness :
  notifier_calls
    (trace (snd (sample_gallery_handler Sample.answers_200
                   (Sample.upload [Byte.x09; Byte.x07; Byte.x08]) world0)))
  = 1
  /\ notifier_calls
       (trace (snd (sample_gallery_handler Sample.answers_200
                      (Sample.upload [Byte.x09; Byte.x08; Byte.x07]) world0)))
     = 0
  /\ fst (sample_gallery_handler Sample.answers_200
            (Sample.upload [Byte.x09; Byte.x08; Byte.x07]) world0)
     = inr {| status := 200;
              body := PyDict
                [("status", PyStr "success");
                 ("message",
                  PyStr "Match found but confidence too low (60.00%)");
                 ("name", PyStr "alice");
                 ("confidence", PyStr "60.00%");
                 ("node_status",
                  PyStr "Data not sent due to low confidence")] |}.
Proof.
  split.
  - apply (proj1 (confidence_threshold_gate
                    Sample.image nat Sample.answers_200
                    Sample.load_image_file Sample.face_encodings
                    Sample.face_dist Sample.gallery_encodings
                    Sample.gallery_names
                    (Sample.upload [Byte.x09; Byte.x07; Byte.x08])
                    [9] 7 [8] "alice" (confidence_of Sample.face_dist 1 7)
                    world0
                    (sample_upload_detected Byte.x09 [Byte.x07; Byte.x08])
                    sample_no_match_9 eq_refl)).
    reflexivity.
  - apply (proj2 (confidence_threshold_gate
                    Sample.image nat Sample.answers_200
                    Sample.load_image_file Sample.face_encodings
                    Sample.face_dist Sample.gallery_encodings
                    Sample.gallery_names
                    (Sample.upload [Byte.x09; Byte.x08; Byte.x07])
                    [9] 8 [7] "alice" (confidence_of Sample.face_dist 1 8)
                    world0
                    (sample_upload_detected Byte.x09 [Byte.x08; Byte.x07])
                    sample_no_match_9 eq_refl)).
    reflexivity.
Defined.

(** An instance of C4: a face at a negative distance of alice; the
    confidence shown is above 100. *)
Lemma confidence_reported_unclamped_witness :
  exists r w',
    sample_gallery_handler Sample.answers_200 (Sample.upload [Byte.x06]) world0
    = (inr r, w')
    /\ status r = 200%Z
    /\ field "name" (body r) = Some (PyStr "alice")
    /\ field "confidence" (body r) = Some (PyStr "125.00%").
Proof.
  eexists. eexists.
  split; [reflexivity |]. split; [reflexivity |].
  eapply (confidence_reported_unclamped
            Sample.image nat Sample.answers_200
            Sample.load_image_file Sample.face_encodings Sample.face_dist
            Sample.gallery_encodings Sample.gallery_names
            (Sample.upload [Byte.x06]) [] 6 [] 0 1 "alice" world0).
  - exact (sample_upload_detected Byte.x06 []).
  - intros p [].
  - reflexivity.
  - reflexivity.
  - intros j b _ _. apply Nat.le_0_l.
  - reflexivity.
  - reflexivity.
  - reflexivity.
Defined.

(** An instance of C5: three faces in the upload; the first matches nobody,
    the second matches alice, the third is not looked at. *)
Lemma first_matching_face_decides_witness :
  compared
    (trace (snd (sample_gallery_handler Sample.answers_200
                   (Sample.upload [Byte.x09; Byte.x07; Byte.x08]) world0)))
  = [9; 7]
  /\ exists r w',
      sample_gallery_handler Sample.answers_200
        (Sample.upload [Byte.x09; Byte.x07; Byte.x08]) world0 = (inr r, w')
      /\ status r = 200%Z
      /\ field "status" (body r) = Some (PyStr "success")
      /\ field "name" (body r) = Some (PyStr "alice")
      /\ field "confidence" (body r) = Some (PyStr "70.00%").
Proof.
  destruct (proj2 (first_matching_face_decides
                     Sample.image nat Sample.answers_200
                     Sample.load_image_file Sample.face_encodings
                     Sample.face_dist Sample.gallery_encodings
                     Sample.gallery_names)
              (Sample.upload [Byte.x09; Byte.x07; Byte.x08])
              [9] 7 [8] "alice" (confidence_of Sample.face_dist 1 7) world0
              (sample_upload_detected Byte.x09 [Byte.x07; Byte.x08])
              sample_no_match_9 eq_refl)
    as [Hcompared Hresponse].
  split.
  - exact Hcompared.
  - apply Hresponse. intros k. exact I.
Defined.

(** Instances of C6, for a match at 70%: the server out of reach, a 404, and
    a 200. *)
Lemma notification_outcome_stays_200_witness :
  fst (sample_gallery_handler Sample.unreachable (Sample.upload [Byte.x07])
         world0)
  = inr {| status := 200;
           body := PyDict
             [("status", PyStr "success");
              ("message", PyStr "Match Found! Name: alice");
              ("name", PyStr "alice");
              ("confidence", PyStr "70.00%");
              ("node_status",
               PyStr "Data sent but no response from Node.js")] |}
  /\ fst (sample_gallery_handler Sample.answers_404
            (Sample.upload [Byte.x07]) world0)
     = inr {| status := 200;
              body := PyDict
                [("status", PyStr "success");
                 ("message", PyStr "Match Found! Name: alice");
                 ("name", PyStr "alice");
                 ("confidence", PyStr "70.00%");
                 ("node_response",
                  PyDict [("status", PyStr "partial_success");
                          ("message",
                           PyStr "Data sent but Node.js returned non-200 status");
                          ("node_status", PyInt 404)])] |}
  /\ fst (sample_gallery_handler Sample.answers_200
            (Sample.upload [Byte.x07]) world0)
     = inr {| status := 200;
              body := PyDict
                [("status", PyStr "success");
                 ("message", PyStr "Match Found! Name: alice");
                 ("name", PyStr "alice");
                 ("confidence", PyStr "70.00%");
                 ("node_response", PyDict [("ok", PyBool true)])] |}
  /\ exists r w',
      sample_gallery_handler Sample.answers_null (Sample.upload [Byte.x07])
                             world0 = (inr r, w')
      /\ status r = 200%Z.
Proof.
  split; [| split; [| split]].
  - apply (proj1 (notification_outcome_stays_200
                    Sample.image nat Sample.unreachable
                    Sample.load_image_file Sample.face_encodings
                    Sample.face_dist Sample.gallery_encodings
                    Sample.gallery_names (Sample.upload [Byte.x07])
                    [] 7 [] "alice" (confidence_of Sample.face_dist 1 7)
                    world0 (sample_upload_detected Byte.x07 [])
                    (fun p F => match F with end) eq_refl eq_refl)).
    intros k _. exists "timed out". reflexivity.
  - apply (proj1 (proj2 (notification_outcome_stays_200
                           Sample.image nat Sample.answers_404
                           Sample.load_image_file Sample.face_encodings
                           Sample.face_dist Sample.gallery_encodings
                           Sample.gallery_names (Sample.upload [Byte.x07])
                           [] 7 [] "alice"
                           (confidence_of Sample.face_dist 1 7)
                           world0 (sample_upload_detected Byte.x07 [])
                           (fun p F => match F with end) eq_refl eq_refl))
             {| status_code := 404; json := inl (OtherException "not JSON") |}).
    + reflexivity.
    + discriminate.
  - apply (f_equal fst
             (proj1 (proj2 (proj2 (notification_outcome_stays_200
                              Sample.image nat Sample.answers_200
                              Sample.load_image_file Sample.face_encodings
                              Sample.face_dist Sample.gallery_encodings
                              Sample.gallery_names (Sample.upload [Byte.x07])
                              [] 7 [] "alice"
                              (confidence_of Sample.face_dist 1 7)
                              world0 (sample_upload_detected Byte.x07 [])
                              (fun p F => match F with end) eq_refl eq_refl)))
                    (PyDict [("ok", PyBool true)]) _ eq_refl)).
  - apply (proj2 (proj2 (proj2 (notification_outcome_stays_200
                                  Sample.image nat Sample.answers_null
                                  Sample.load_image_file Sample.face_encodings
                                  Sample.face_dist Sample.gallery_encodings
                                  Sample.gallery_names
                                  (Sample.upload [Byte.x07])
                                  [] 7 [] "alice"
                                  (confidence_of Sample.face_dist 1 7)
                                  world0 (sample_upload_detected Byte.x07 [])
                                  (fun p F => match F with end)
                                  eq_refl eq_refl)))).
    intros k. exact I.
Defined.

(** Instances of C7: a request without an image part, an empty upload, and an
    upload without a face. *)
Lemma validation_failures_witness :
  sample_gallery_handler Sample.answers_200 {| files := [] |} world0
  = (inr {| status := 400;
            body := PyDict [("status", PyStr "error");
                            ("message", PyStr "No image uploaded")] |},
     world0)
  /\ sample_gallery_handler Sample.answers_200 (Sample.upload []) world0
     = (inr {| status := 400;
               body := PyDict
                 [("status", PyStr "error");
                  ("message",
                   PyStr "Face recognition error: Empty image data")] |},
        world0)
  /\ sample_gallery_handler Sample.answers_200 (Sample.upload [Byte.x00])
                            world0
     = (inr {| status := 400;
               body := PyDict
                 [("status", PyStr "error");
                  ("message",
                   PyStr "No face detected in uploaded image")] |},
        world0).
Proof.
  split; [| split].
  - apply (proj1 (validation_failures
                    Sample.image nat Sample.answers_200
                    Sample.load_image_file Sample.face_encodings
                    Sample.face_dist Sample.gallery_encodings
                    Sample.gallery_names {| files := [] |} world0)).
    reflexivity.
  - apply (proj1 (proj2 (validation_failures
                           Sample.image nat Sample.answers_200
                           Sample.load_image_file Sample.face_encodings
                           Sample.face_dist Sample.gallery_encodings
                           Sample.gallery_names (Sample.upload []) world0))
             {| content_type := "image/jpeg"; stream := [] |});
      reflexivity.
  - apply (proj2 (proj2 (validation_failures
                           Sample.image nat Sample.answers_200
                           Sample.load_image_file Sample.face_encodings
                           Sample.face_dist Sample.gallery_encodings
                           Sample.gallery_names (Sample.upload [Byte.x00])
                           world0))
             {| content_type := "image/jpeg"; stream := [Byte.x00] |} []);
      [reflexivity | discriminate | reflexivity | reflexivity].
Defined.

(** Instances of C8: a face that matches nobody in the sample gallery, and a
    face against an empty gallery. *)
Lemma no_match_is_not_found_witness :
  sample_gallery_handler Sample.answers_200 (Sample.upload [Byte.x09]) world0
  = (inr {| status := 200;
            body := PyDict [("status", PyStr "not_found");
                            ("message", PyStr "No Match Found");
                            ("name", PyNone);
                            ("confidence", PyStr "0%")] |},
     {| posts := 0; trace := [EvCompareFaces 9; EvFaceDistance 9] |})
  /\ compare_faces Sample.answers_200 Sample.load_image_file
                   Sample.face_encodings Sample.face_dist [] []
                   (Sample.upload [Byte.x07]) world0
     = (inr {| status := 200;
               body := PyDict [("status", PyStr "not_found");
                               ("message", PyStr "No Match Found");
                               ("name", PyNone);
                               ("confidence", PyStr "0%")] |},
        {| posts := 0; trace := [EvCompareFaces 7; EvFaceDistance 7] |}).
Proof.
  split.
  - apply (proj1 (no_match_is_not_found
                    Sample.image nat Sample.answers_200
                    Sample.load_image_file Sample.face_encodings
                    Sample.face_dist Sample.gallery_encodings
                    Sample.gallery_names (Sample.upload [Byte.x09]) [9] world0
                    (sample_upload_detected Byte.x09 [])
                    (fun H => match H in _ = l
                                    return match l with [] => False | _ => True end
                              with eq_refl => I end))).
    intros p a [<- | []] [<- | [<- | []]]; reflexivity.
  - apply (proj1 (proj2 (no_match_is_not_found
                           Sample.image nat Sample.answers_200
                           Sample.load_image_file Sample.face_encodings
                           Sample.face_dist [] [] (Sample.upload [Byte.x07])
                           [7] world0
                           (sample_upload_detected Byte.x07 [])
                           (fun H => match H in _ = l
                                           return match l with
                                                  | [] => False
                                                  | _ => True
                                                  end
                                     with eq_refl => I end)))).
Defined.

(** An instance of C9: the sample folder, with a text file, two images of
    alice, an image without a face, a file that does not decode, an image
    with two faces. *)
Lemma load_known_faces_gallery_witness :
  load_known_faces Sample.no_folder Sample.listdir Sample.load_image_file
                   Sample.face_encodings
  = inr ([], [])
  /\ load_known_faces Sample.path_exists Sample.listdir Sample.load_image_file
                      Sample.face_encodings
     = inr ([1; 2; 1], ["alice"; "bob"; "alice"])
  /\ entry_of Sample.load_image_file Sample.face_encodings "notes.txt" = []
  /\ entry_of Sample.load_image_file Sample.face_encodings "broken.jpg" = []
  /\ entry_of Sample.load_image_file Sample.face_encodings "wall.jpeg" = []
  /\ entry_of Sample.load_image_file Sample.face_encodings "bob.PNG"
     = [(2, "bob")]
  /\ fst (splitext "bob.PNG") = "bob".
Proof.
  destruct (load_known_faces_gallery Sample.image nat Sample.no_folder
              Sample.listdir Sample.load_image_file Sample.face_encodings)
    as (Hmissing & _).
  destruct (load_known_faces_gallery Sample.image nat Sample.path_exists
              Sample.listdir Sample.load_image_file Sample.face_encodings)
    as (_ & Hlisted & Hsuffix & Hbroken & Hnoface & Hface & _ & _ & Hroot).
  split; [| split; [| split; [| split; [| split; [| split]]]]].
  - apply Hmissing. reflexivity.
  - apply (Hlisted ["notes.txt"; "alice.jpg"; "wall.jpeg"; "broken.jpg";
                    "bob.PNG"; "alice.jpeg"]); reflexivity.
  - apply Hsuffix. reflexivity.
  - apply (Hbroken "broken.jpg" (OtherException "cannot identify image file")).
    reflexivity.
  - apply (Hnoface "wall.jpeg" []); [reflexivity | left; reflexivity].
  - apply (Hface "bob.PNG" [2; 3] 2 [3]); reflexivity.
  - apply (Hroot "bob" ".PNG").
    + right; right; left. reflexivity.
    + reflexivity.
    + exists 0, "b"%char. split; [reflexivity | discriminate].
Defined.

(** An instance of C10: the gallery loaded from the sample folder. *)
Lemma gallery_lookup_in_bounds_witness :
  List.length [1; 2; 1] = List.length ["alice"; "bob"; "alice"]
  /\ (forall q,
        List.length (face_recognition_compare_faces Sample.face_dist [1; 2; 1]
                       q CONFIG.TOLERANCE) = 3)
  /\ (forall q i,
        index_true (face_recognition_compare_faces Sample.face_dist [1; 2; 1]
                      q CONFIG.TOLERANCE) = Some i ->
        i < 3 /\ exists name, nth_error ["alice"; "bob"; "alice"] i = Some name)
  /\ (forall q w, exists r,
         fst (match_face Sample.face_dist [1; 2; 1] ["alice"; "bob"; "alice"]
                         q w) = inr r).
Proof.
  apply (gallery_lookup_in_bounds Sample.image nat Sample.path_exists
           Sample.listdir Sample.load_image_file Sample.face_encodings
           Sample.face_dist [1; 2; 1] ["alice"; "bob"; "alice"]).
  reflexivity.
Defined.

(** ** The further properties at work on the sample collaborators *)

(** An instance of X2: the server is out of reach once and then answers. *)
Lemma send_to_nodejs_first_answer_witness :
  send_to_nodejs Sample.recovers (PyStr "x") 3 (@world0 nat)
  = (inr (PyDict [("ok", PyBool true)]),
     {| posts := 2;
        trace := [EvNotify (PyStr "x");
                  EvPost url (PyStr "x") 5; EvSleep 1;
                  EvPost url (PyStr "x") 5] |}).
Proof.
  apply (send_to_nodejs_first_answer nat Sample.recovers (PyStr "x") 3
           world0 1 (PyDict [("ok", PyBool true)])).
  - cbn. lia.
  - intros [| j] Hj.
    + left. exists "timed out". reflexivity.
    + exfalso. lia.
  - exists {| status_code := 200; json := inr (PyDict [("ok", PyBool true)]) |}.
    split; [reflexivity |]. left. split; reflexivity.
Defined.

(** An instance of X4: a match that is notified. *)
Lemma posted_payload_matches_response_witness :
  exists r w',
    sample_gallery_handler Sample.recovers (Sample.upload [Byte.x07]) world0
    = (inr r, w')
    /\ exists t,
        trace w' = trace (@world0 nat) ++ t
        /\ forall u b tm,
            In (EvPost u b tm) t ->
            u = CONFIG.NODE_JS_URL /\ tm = 5%Z
            /\ exists name confidence,
                b = PyDict [("name", PyStr name);
                            ("confidence", PyStr confidence)]
                /\ (status r = 200%Z ->
                    field "name" (body r) = Some (PyStr name)
                    /\ field "confidence" (body r) = Some (PyStr confidence)).
Proof.
  eexists. eexists. split; [reflexivity |].
  eapply (posted_payload_matches_response
            Sample.image nat Sample.recovers
            Sample.load_image_file Sample.face_encodings Sample.face_dist
            Sample.gallery_encodings Sample.gallery_names
            (Sample.upload [Byte.x07]) world0).
  reflexivity.
Defined.

(** An instance of X5: requests raises something of its own making on the
    first attempt. *)
Lemma uncaught_notifier_exception_is_500_witness :
  fst (sample_gallery_handler Sample.crashes (Sample.upload [Byte.x07]) world0)
  = inr {| status := 500;
           body := PyDict
             [("status", PyStr "error");
              ("message",
               PyStr "Error processing the image: unexpected keyword argument")] |}
  /\ posts (snd (sample_gallery_handler Sample.crashes
                   (Sample.upload [Byte.x07]) world0)) = 1.
Proof.
  unshelve epose proof
    (uncaught_notifier_exception_is_500
       Sample.image nat Sample.crashes
       Sample.load_image_file Sample.face_encodings Sample.face_dist
       Sample.gallery_encodings Sample.gallery_names
       (Sample.upload [Byte.x07]) [] 7 [] "alice"
       (confidence_of Sample.face_dist 1 7) world0 0
       "unexpected keyword argument" _ _ _ _ _ _ _) as H.
  - exact (sample_upload_detected Byte.x07 []).
  - intros p [].
  - reflexivity.
  - reflexivity.
  - lia.
  - intros j Hj. exfalso. lia.
  - split; [reflexivity | left; reflexivity].
  - split.
    + exact (f_equal fst H).
    + exact (f_equal (fun p => posts (snd p)) H).
Defined.

(** Instances of X6: a 200 with an empty JSON object, and a 200 with a JSON
    object that has a member. *)
Lemma falsy_answer_reported_as_no_response_witness :
  fst (sample_gallery_handler Sample.answers_empty (Sample.upload [Byte.x07])
         world0)
  = inr {| status := 200;
           body := PyDict
             [("status", PyStr "success");
              ("message", PyStr "Match Found! Name: alice");
              ("name", PyStr "alice");
              ("confidence", PyStr "70.00%");
              ("node_status",
               PyStr "Data sent but no response from Node.js")] |}
  /\ fst (sample_gallery_handler Sample.answers_200
            (Sample.upload [Byte.x07]) world0)
     = inr {| status := 200;
              body := PyDict
                [("status", PyStr "success");
                 ("message", PyStr "Match Found! Name: alice");
                 ("name", PyStr "alice");
                 ("confidence", PyStr "70.00%");
                 ("node_response", PyDict [("ok", PyBool true)])] |}.
Proof.
  split.
  - apply (proj1 (falsy_answer_reported_as_no_response
                    Sample.image nat Sample.answers_empty
                    Sample.load_image_file Sample.face_encodings
                    Sample.face_dist Sample.gallery_encodings
                    Sample.gallery_names (Sample.upload [Byte.x07])
                    [] 7 [] "alice" (confidence_of Sample.face_dist 1 7)
                    world0 0
                    {| status_code := 200; json := inr (PyDict []) |}
                    (PyDict [])
                    (sample_upload_detected Byte.x07 [])
                    (fun p F => match F with end) eq_refl eq_refl
                    (le_S _ _ (le_S _ _ (le_n 1)))
                    (fun j Hj => match Nat.nlt_0_r j Hj with end)
                    eq_refl eq_refl eq_refl)).
    reflexivity.
  - apply (proj2 (falsy_answer_reported_as_no_response
                    Sample.image nat Sample.answers_200
                    Sample.load_image_file Sample.face_encodings
                    Sample.face_dist Sample.gallery_encodings
                    Sample.gallery_names (Sample.upload [Byte.x07])
                    [] 7 [] "alice" (confidence_of Sample.face_dist 1 7)
                    world0 0
                    {| status_code := 200;
                       json := inr (PyDict [("ok", PyBool true)]) |}
                    (PyDict [("ok", PyBool true)])
                    (sample_upload_detected Byte.x07 [])
                    (fun p F => match F with end) eq_refl eq_refl
                    (le_S _ _ (le_S _ _ (le_n 1)))
                    (fun j Hj => match Nat.nlt_0_r j Hj with end)
                    eq_refl eq_refl eq_refl)).
    reflexivity.
Defined.

(** An instance of X7: the second face of the upload matches alice. *)
Lemma success_names_a_gallery_entry_witness :
  exists r w',
    sample_gallery_handler Sample.answers_200
      (Sample.upload [Byte.x09; Byte.x07]) world0 = (inr r, w')
    /\ exists q i a name,
        In q [9; 7]
        /\ nth_error Sample.gallery_encodings i = Some a
        /\ nth_error Sample.gallery_names i = Some name
        /\ within_tolerance Sample.face_dist a q = true
        /\ (forall j b, nth_error Sample.gallery_encodings j = Some b ->
                        within_tolerance Sample.face_dist b q = true -> i <= j)
        /\ field "name" (body r) = Some (PyStr name)
        /\ field "confidence" (body r)
           = Some (PyStr (format_confidence
                            (confidence_of Sample.face_dist a q))).
Proof.
  eexists. eexists. split; [reflexivity |].
  eapply (success_names_a_gallery_entry
            Sample.image nat Sample.answers_200
            Sample.load_image_file Sample.face_encodings Sample.face_dist
            Sample.gallery_encodings Sample.gallery_names
            (Sample.upload [Byte.x09; Byte.x07]) [9; 7] world0).
  - exact (sample_upload_detected Byte.x09 [Byte.x07]).
  - reflexivity.
  - reflexivity.
Defined.

(** An instance of X8: a face that matches nobody. *)
Lemma not_found_means_no_match_witness :
  exists r w',
    sample_gallery_handler Sample.answers_200 (Sample.upload [Byte.x09]) world0
    = (inr r, w')
    /\ (forall q a, In q [9] -> In a Sample.gallery_encodings ->
                    within_tolerance Sample.face_dist a q = false)
    /\ w' = after_compare [9] world0.
Proof.
  eexists. eexists. split; [reflexivity |].
  eapply (not_found_means_no_match
            Sample.image nat Sample.answers_200
            Sample.load_image_file Sample.face_encodings Sample.face_dist
            Sample.gallery_encodings Sample.gallery_names
            (Sample.upload [Byte.x09]) [9] world0).
  - exact (sample_upload_detected Byte.x09 []).
  - reflexivity.
  - reflexivity.
Defined.

(** An instance of X10: an upload that does not decode. *)
Lemma decode_failure_is_500_witness :
  compare_faces Sample.answers_200 Sample.picky_load_image_file
                Sample.face_encodings Sample.face_dist
                Sample.gallery_encodings Sample.gallery_names
                (Sample.upload [Byte.xff; Byte.x07]) world0
  = (inr {| status := 500;
            body := PyDict
              [("status", PyStr "error");
               ("message",
                PyStr "Error processing the image: cannot identify image file")] |},
     world0).
Proof.
  apply (decode_failure_is_500
           Sample.image nat Sample.answers_200 Sample.picky_load_image_file
           Sample.face_encodings Sample.face_dist
           Sample.gallery_encodings Sample.gallery_names
           (Sample.upload [Byte.xff; Byte.x07]) world0
           {| content_type := "image/jpeg"; stream := [Byte.xff; Byte.x07] |}
           "cannot identify image file").
  - reflexivity.
  - discriminate.
  - left. reflexivity.
Defined.


(** An instance of X12: the folder exists and cannot be listed. *)
Lemma load_known_faces_fails_only_on_listdir_witness :
  load_known_faces Sample.path_exists Sample.listdir_denied
                   Sample.load_image_file Sample.face_encodings
  = inl (OtherException "Permission denied").
Proof.
  apply (proj2 (load_known_faces_fails_only_on_listdir
                  Sample.image nat Sample.path_exists Sample.listdir_denied
                  Sample.load_image_file Sample.face_encodings
                  (OtherException "Permission denied"))).
  split; reflexivity.
Defined.

